(** * libsl-machine: the finite state machine of [state_machine.c]

    A shallow embedding of [src/libsl-machine/state_machine.c] and of the
    structures of [state_machine.h], followed by the properties of the
    run/dispatch algorithm, of the registration calls and of the
    transition request.

    Conventions of the embedding.
    - A [uint32_t] is a number in [N]; conversions from the signed
      constants of the source ([-1]) are written out ([to_uint32],
      [to_bool]).
    - A pointer to a machine is an [option fsm_t]: [None] is [NULL].
      [fsm->actual_state] points into the array [fsm->states]; it is kept
      as the offset of the pointed element.  The block [private_data] of a
      state is allocated once per state and never shared, so it is a field
      of the state.
    - Callbacks are function pointers, that is addresses, and [NULL] is the
      address [0].  What a callback does is outside the library: a call is
      recorded as an [event], and a callback is assumed not to touch the
      machine it is called from.
    - Behaviour the C standard leaves undefined is an explicit outcome
      [Undefined]: dereferencing [NULL], reading outside the array of
      states, and shifting an [int] by its width or more (C11 6.5.7p3).
    - [malloc] is assumed to succeed.  The bytes it returns are
      indeterminate: [state_machine_init] takes them as a parameter.
    - The fields [sm_run], [get_state], [add_state], [add_transition] and
      [go_to_state] of [fsm_t] are set once by [state_machine_init] to the
      five static functions; a call through them is a call of the
      function. *)

From Stdlib Require Import NArith ZArith Bool List Lia.
From stdpp Require Import base option list relations.

Local Open Scope N_scope.

(** ** Machine integers *)

(** Conversion of a signed value to [uint32_t]. *)
Definition to_uint32 (z : Z) : N := Z.to_N (z mod 2 ^ 32).

(** Conversion of a value to a 32-bit two's complement [int]. *)
Definition to_int (z : Z) : Z := ((z + 2 ^ 31) mod 2 ^ 32 - 2 ^ 31)%Z.

(** Conversion of an integer to [bool] ([_Bool] of [stdbool.h]): every
    value other than zero becomes [true]. *)
Definition to_bool (z : Z) : bool := negb (z =? 0)%Z.

(** ** Undefined behaviour *)

Inductive fault : Set :=
| NullDereference
| OutOfBounds
| ShiftTooWide.

Inductive outcome (A : Type) : Type :=
| Ok (a : A)
| Undefined (f : fault).

Arguments Ok {A} a.
Arguments Undefined {A} f.

Global Instance outcome_bind : MBind outcome := fun A B k o =>
  match o with
  | Ok a => k a
  | Undefined f => Undefined f
  end.

(** Width of [int]. *)
Definition int_width : N := 32.

(** [a << n] on [int]: undefined when [n] reaches the width of [int]
    (C11 6.5.7p3).  Below the width the result is the 32-bit pattern read in
    two's complement, as GCC, Clang and CompCert define it: [0x1 << 31] is
    [INT_MIN], which converts to the bit [2 ^ 31] of a [uint32_t]. *)
Definition shl_int (a : Z) (n : N) : outcome Z :=
  if n <? int_width then Ok (to_int (Z.shiftl a (Z.of_N n)))
  else Undefined ShiftTooWide.

(** ** Data of [state_machine.h] and [state_machine.c] *)

Definition pointer : Set := N.
Definition NULL : pointer := 0.

(** [fsm_state_run_t] and [fsm_state_enter_t]: addresses of callbacks. *)
Definition fsm_state_run_t : Set := pointer.
Definition fsm_state_enter_t : Set := pointer.

(** [struct _state_private_t] *)
Record state_private_t : Set := mk_private {
  enabled : bool;
  run : fsm_state_run_t;
  enter : fsm_state_enter_t
}.

(** [struct _fsm_state_t] *)
Record fsm_state_t : Set := mk_state {
  id : N;
  valid_target : N;
  private_data : state_private_t
}.

(** [struct _fsm_t] *)
Record fsm_t : Set := mk_fsm {
  actual_state : N;
  target_state : N;
  states : list fsm_state_t;
  state_nr : N
}.

Definition set_private_data (p : state_private_t) (s : fsm_state_t) : fsm_state_t :=
  {| id := id s; valid_target := valid_target s; private_data := p |}.

Definition set_valid_target (v : N) (s : fsm_state_t) : fsm_state_t :=
  {| id := id s; valid_target := v; private_data := private_data s |}.

Definition set_actual_state (i : N) (m : fsm_t) : fsm_t :=
  {| actual_state := i; target_state := target_state m;
     states := states m; state_nr := state_nr m |}.

Definition set_target_state (t : N) (m : fsm_t) : fsm_t :=
  {| actual_state := actual_state m; target_state := t;
     states := states m; state_nr := state_nr m |}.

Definition set_states (l : list fsm_state_t) (m : fsm_t) : fsm_t :=
  {| actual_state := actual_state m; target_state := target_state m;
     states := l; state_nr := state_nr m |}.

(** [fsm->states[i]] as an rvalue. *)
Definition state_at (m : fsm_t) (i : N) : outcome fsm_state_t :=
  match states m !! N.to_nat i with
  | Some s => Ok s
  | None => Undefined OutOfBounds
  end.

(** [fsm->states[i] = s] *)
Definition store_state (i : N) (s : fsm_state_t) (m : fsm_t) : fsm_t :=
  set_states (<[N.to_nat i := s]> (states m)) m.

(** The set [allowed_targets] of a state is the set of the bits of its
    mask [valid_target]. *)
Definition allowed_target (s : fsm_state_t) (t : N) : bool :=
  N.testbit (valid_target s) t.

(** ** Calls of the callbacks *)

Inductive event : Set :=
| CallRun (f : fsm_state_run_t) (par : pointer)
| CallEnter (f : fsm_state_enter_t) (exit_state_id : N) (par : pointer).

(** [if (private_data->run != NULL) private_data->run(arg);] *)
Definition call_run (f : fsm_state_run_t) (arg : pointer) : list event :=
  if f =? NULL then [] else [CallRun f arg].

(** [if (private_data->enter != NULL) private_data->enter(id, arg);] *)
Definition call_enter (f : fsm_state_enter_t) (exit_id : N) (arg : pointer) : list event :=
  if f =? NULL then [] else [CallEnter f exit_id arg].

(** ** The functions of [state_machine.c] *)

(** [state_machine_init]: [malloc_private cntr] is the indeterminate
    content of the block allocated for the private data of state [cntr];
    only its field [enabled] is written. *)
Definition state_machine_init (malloc_private : N -> state_private_t)
    (state_nr initial_state : N) (arg : pointer) : fsm_t :=
  {| actual_state := initial_state;
     target_state := initial_state;
     states :=
       (fun cntr : nat =>
          {| id := N.of_nat cntr;
             valid_target := 0;
             private_data :=
               {| enabled := false;
                  run := run (malloc_private (N.of_nat cntr));
                  enter := enter (malloc_private (N.of_nat cntr)) |} |})
         <$> seq 0 (N.to_nat state_nr);
     state_nr := state_nr |}.

(** [state_machine_get_state] *)
Definition state_machine_get_state (fsm : option fsm_t) : outcome N :=
  match fsm with
  | None => Undefined NullDereference
  | Some m => s ← state_at m (actual_state m); Ok (id s)
  end.

(** [state_machine_add_state] *)
Definition state_machine_add_state (fsm : option fsm_t) (id : N)
    (run : fsm_state_run_t) (enter : fsm_state_enter_t)
    : outcome (bool * option fsm_t) :=
  match fsm with
  | None => Ok (to_bool (-1), None)
  | Some m =>
      if state_nr m <=? id then Ok (false, Some m)
      else
        s ← state_at m id;
        if eqb (enabled (private_data s)) false then
          let p := {| enabled := true; run := run; enter := enter |} in
          Ok (true, Some (store_state id (set_private_data p s) m))
        else Ok (false, Some m)
  end.

(** [state_machine_add_transition]: the machine is dereferenced without a
    test for [NULL]. *)
Definition state_machine_add_transition (fsm : option fsm_t)
    (state_id target_id : N) : outcome (bool * option fsm_t) :=
  match fsm with
  | None => Undefined NullDereference
  | Some m =>
      if (state_nr m <=? state_id) || (state_nr m <=? target_id)
      then Ok (false, Some m)
      else
        s ← state_at m state_id;
        let target_reg := valid_target s in
        bit ← shl_int 1 target_id;
        let target_reg := N.lor target_reg (to_uint32 bit) in
        Ok (true, Some (store_state state_id (set_valid_target target_reg s) m))
  end.

(** [state_machine_run] *)
Definition state_machine_run (fsm : option fsm_t) (arg : pointer)
    : outcome (list event * N * option fsm_t) :=
  match fsm with
  | None => Ok ([], to_uint32 (-1), None)
  | Some sm =>
      actual ← state_at sm (actual_state sm);
      if id actual =? target_state sm then
        let calls := call_run (run (private_data actual)) arg in
        Ok (calls, id actual, Some sm)
      else
        exit_id ← state_machine_get_state (Some sm);
        let sm := set_actual_state (target_state sm) sm in
        actual ← state_at sm (actual_state sm);
        let calls := call_enter (enter (private_data actual)) exit_id arg in
        Ok (calls, id actual, Some sm)
  end.

(** [state_machine_go_to_state] *)
Definition state_machine_go_to_state (fsm : option fsm_t) (target_id : N)
    : outcome (bool * option fsm_t) :=
  match fsm with
  | None => Ok (to_bool (-1), None)
  | Some m =>
      if state_nr m <=? target_id then Ok (false, Some m)
      else
        state ← state_at m (actual_state m);
        let state_mask := valid_target state in
        bit ← shl_int 1 target_id;
        if negb (N.land state_mask (to_uint32 bit) =? 0)
        then Ok (true, Some (set_target_state target_id m))
        else Ok (false, Some m)
  end.

(** ** Calls of a driver and the states it can reach *)

Inductive call : Set :=
| AddState (id : N) (run : fsm_state_run_t) (enter : fsm_state_enter_t)
| AddTransition (state_id target_id : N)
| GoToState (target_id : N)
| Run (arg : pointer).

(** [step m c m']: the call [c] on the machine [m] returns and leaves the
    machine [m']. *)
Inductive step (m : fsm_t) : call -> fsm_t -> Prop :=
| step_add_state id run enter r m' :
    state_machine_add_state (Some m) id run enter = Ok (r, Some m') ->
    step m (AddState id run enter) m'
| step_add_transition state_id target_id r m' :
    state_machine_add_transition (Some m) state_id target_id = Ok (r, Some m') ->
    step m (AddTransition state_id target_id) m'
| step_go_to_state target_id r m' :
    state_machine_go_to_state (Some m) target_id = Ok (r, Some m') ->
    step m (GoToState target_id) m'
| step_run arg calls r m' :
    state_machine_run (Some m) arg = Ok (calls, r, Some m') ->
    step m (Run arg) m'.

Inductive steps (m : fsm_t) : list call -> fsm_t -> Prop :=
| steps_nil : steps m [] m
| steps_cons c cs m1 m2 : step m c m1 -> steps m1 cs m2 -> steps m (c :: cs) m2.

(** ** Invariants *)

(** Layout of the array: [state_nr] states, each with its index as
    identity and a mask that fits [uint32_t]. *)
Definition layout (m : fsm_t) : Prop :=
  length (states m) = N.to_nat (state_nr m) /\
  id <$> states m = N.of_nat <$> seq 0 (length (states m)) /\
  Forall (fun s => valid_target s < 2 ^ 32) (states m).

(** The current state and the target lie in [[0, state_nr)]. *)
Definition in_range (m : fsm_t) : Prop :=
  actual_state m < state_nr m /\ target_state m < state_nr m.

Definition fsm_inv (m : fsm_t) : Prop := layout m /\ in_range m.

Global Instance layout_dec m : Decision (layout m).
Proof. unfold layout. apply _. Defined.

Global Instance in_range_dec m : Decision (in_range m).
Proof. unfold in_range. apply _. Defined.

Global Instance fsm_inv_dec m : Decision (fsm_inv m).
Proof. unfold fsm_inv. apply _. Defined.

(** ** The scenario of the specification

    Three states with distinct callbacks, the edges [0 -> 1] and
    [1 -> 2]. *)

Definition no_callbacks : N -> state_private_t :=
  fun _ => {| enabled := false; run := NULL; enter := NULL |}.

Definition scenario : outcome fsm_t :=
  let m := state_machine_init no_callbacks 3 0 NULL in
  '(_, fsm) ← state_machine_add_state (Some m) 0 100 200;
  '(_, fsm) ← state_machine_add_state fsm 1 101 201;
  '(_, fsm) ← state_machine_add_state fsm 2 102 202;
  '(_, fsm) ← state_machine_add_transition fsm 0 1;
  '(_, fsm) ← state_machine_add_transition fsm 1 2;
  match fsm with Some m => Ok m | None => Undefined NullDereference end.

Definition scenario_machine : fsm_t :=
  {| actual_state := 0; target_state := 0;
     states := [ mk_state 0 2 (mk_private true 100 200);
                 mk_state 1 4 (mk_private true 101 201);
                 mk_state 2 0 (mk_private true 102 202) ];
     state_nr := 3 |}.


(** ** The transition calls as the specification states them *)

(** Transition request: the call returns; it succeeds exactly when
    [target_id] is below [state_nr] and in the set of the current state; a
    success sets the target, a failure changes nothing, and the current
    state is the same afterwards. *)
Definition go_to_state_spec (m : fsm_t) (target_id : N) : Prop :=
  exists cur,
    state_at m (actual_state m) = Ok cur /\
    state_machine_go_to_state (Some m) target_id =
      if (target_id <? state_nr m) && allowed_target cur target_id
      then Ok (true, Some (set_target_state target_id m))
      else Ok (false, Some m).

(** Transition registration: the call succeeds exactly when both
    identities are below [state_nr]; after a success [target_id] is in the
    set of [state_id], and a request for it made in [state_id] succeeds; a
    failure changes nothing. *)
Definition add_transition_spec (m : fsm_t) (state_id target_id : N) : Prop :=
  if (state_id <? state_nr m) && (target_id <? state_nr m) then
    exists m' s',
      state_machine_add_transition (Some m) state_id target_id = Ok (true, Some m') /\
      state_at m' state_id = Ok s' /\
      allowed_target s' target_id = true /\
      (actual_state m' = state_id ->
       state_machine_go_to_state (Some m') target_id =
         Ok (true, Some (set_target_state target_id m')))
  else
    state_machine_add_transition (Some m) state_id target_id = Ok (false, Some m).

(** ** Machines with more states than the mask has bits *)

(** Thirty-three states, no edge. *)
Definition wide_machine : fsm_t := state_machine_init no_callbacks 33 0 NULL.

(** The same machine after [add_transition (0, 0)]. *)
Definition wide_machine_loop : fsm_t :=
  store_state 0 (mk_state 0 1 (no_callbacks 0)) wide_machine.

(** ** A machine created with an initial state out of range *)

Definition stray_machine : fsm_t := state_machine_init no_callbacks 3 5 NULL.

(** ** A machine with two edges out of its current state

    The machine of the scenario after [add_transition (0, 2)]. *)
Definition fork_machine : fsm_t :=
  store_state 0 (mk_state 0 6 (mk_private true 100 200)) scenario_machine.

(** ** The graph of the registered edges *)

(** [edge m a b]: the mask of [states[a]] has the bit of [b]. *)
Definition edge (m : fsm_t) (a b : N) : Prop :=
  exists s, state_at m a = Ok s /\ allowed_target s b = true.

(** No transition is pending, or the pending one follows an edge out of
    the current state. *)
Definition pending_legal (m : fsm_t) : Prop :=
  target_state m = actual_state m \/ edge m (actual_state m) (target_state m).

(** ** States never registered *)

(** The private data of every state still disabled is what
    [state_machine_init] left: the content of the block as allocated. *)
Definition untouched (malloc_private : N -> state_private_t) (m : fsm_t) : Prop :=
  forall j s, state_at m j = Ok s -> enabled (private_data s) = false ->
    private_data s =
      {| enabled := false; run := run (malloc_private j);
         enter := enter (malloc_private j) |}.

(** ** The writes of the registration calls *)

(** The write of [add_transition]: the bit of [target_id] is set in the mask
    of [states[state_id]]. *)
Definition add_edge (m : fsm_t) (state_id target_id : N) : fsm_t :=
  match states m !! N.to_nat state_id with
  | Some s =>
      store_state state_id
        (set_valid_target (N.lor (valid_target s) (2 ^ target_id)) s) m
  | None => m
  end.

(** The write of [add_state]: the private data of [states[id]] are set. *)
Definition register (m : fsm_t) (id : N)
    (run : fsm_state_run_t) (enter : fsm_state_enter_t) : fsm_t :=
  match states m !! N.to_nat id with
  | Some s =>
      store_state id
        (set_private_data {| enabled := true; run := run; enter := enter |} s) m
  | None => m
  end.

(** The flag [enabled] of [states[id]]. *)
Definition is_enabled (m : fsm_t) (id : N) : bool :=
  match states m !! N.to_nat id with
  | Some s => enabled (private_data s)
  | None => false
  end.

(** ** Masks and the number of states *)

(** Every mask has bits for identities below [state_nr] only. *)
Definition masks_valid (m : fsm_t) : Prop :=
  Forall (fun s => valid_target s < 2 ^ state_nr m) (states m).

Global Instance masks_valid_dec m : Decision (masks_valid m).
Proof. unfold masks_valid. apply _. Defined.

(** ** A machine just created, on a heap that is not zeroed *)

(** Content of a block as [malloc] returns it: no word is zero. *)
Definition junk_private : N -> state_private_t :=
  fun _ => {| enabled := true; run := 4096; enter := 8192 |}.

(** Two states, none registered. *)
Definition fresh_machine : fsm_t := state_machine_init junk_private 2 0 NULL.

(** ** A registered state with an edge to itself

    The machine of the scenario after [add_transition (0, 0)]. *)
Definition loop_machine : fsm_t :=
  store_state 0 (mk_state 0 3 (mk_private true 100 200)) scenario_machine.

(** ** Registering an edge twice, as the specification states it *)

(** For identities below [state_nr], the first call reports success, and the
    second call, made on the machine the first has left, reports success and
    leaves that machine as it is. *)
Definition add_transition_twice_spec (m : fsm_t) (state_id target_id : N) : Prop :=
  state_id < state_nr m -> target_id < state_nr m ->
  exists m1,
    state_machine_add_transition (Some m) state_id target_id = Ok (true, Some m1) /\
    state_machine_add_transition (Some m1) state_id target_id = Ok (true, Some m1).

(** ** Proof steps *)

Ltac unfold_bind := unfold mbind, outcome_bind in *.

(** ** The scenario, run *)

Example scenario_setup : scenario = Ok scenario_machine.
Proof. reflexivity. Qed.

Example scenario_ticks :
  (let arg := 7 in
   '(c1, r1, fsm) ← state_machine_run (Some scenario_machine) arg;
   '(b2, fsm) ← state_machine_go_to_state fsm 1;
   '(c3, r3, fsm) ← state_machine_run fsm arg;
   '(b4, fsm) ← state_machine_go_to_state fsm 0;
   '(c5, r5, fsm) ← state_machine_run fsm arg;
   Ok (c1, r1, b2, c3, r3, b4, c5, r5))
  = Ok ([CallRun 100 7], 0, true, [CallEnter 201 0 7], 1, false, [CallRun 101 7], 1).
Proof. reflexivity. Qed.

Example scenario_inv : fsm_inv scenario_machine.
Proof. apply (bool_decide_unpack _). vm_compute. exact I. Qed.

(** ** Bits of the mask *)

Section Bits.

Lemma to_uint32_to_int z : to_uint32 (to_int z) = to_uint32 z.
Proof.
  unfold to_uint32, to_int. f_equal.
  rewrite Zminus_mod_idemp_l. f_equal. lia.
Qed.

Lemma to_uint32_lt z : to_uint32 z < 2 ^ 32.
Proof.
  unfold to_uint32.
  assert (0 <= z mod 2 ^ 32 < 2 ^ 32)%Z by (apply Z.mod_pos_bound; lia).
  lia.
Qed.

(** Below the width of [int] the value of [0x1 << n], converted to
    [uint32_t], is the single bit [n]. *)
Lemma shl_int_bit n :
  n < int_width ->
  exists bit, shl_int 1 n = Ok bit /\ to_uint32 bit = 2 ^ n.
Proof.
  intros Hn. unfold shl_int.
  destruct (N.ltb_spec n int_width) as [_|]; [|lia].
  eexists; split; [reflexivity|].
  rewrite to_uint32_to_int, Z.shiftl_1_l. unfold to_uint32.
  unfold int_width in Hn.
  assert (2 ^ Z.of_N n < 2 ^ 32)%Z by (apply Z.pow_lt_mono_r; lia).
  rewrite Z.mod_small by lia.
  rewrite Z2N.inj_pow by lia. f_equal. lia.
Qed.

Lemma shl_int_wide n : int_width <= n -> shl_int 1 n = Undefined ShiftTooWide.
Proof.
  intros Hn. unfold shl_int.
  destruct (N.ltb_spec n int_width); [lia|reflexivity].
Qed.

Lemma land_bit_testbit x n : negb (N.land x (2 ^ n) =? 0) = N.testbit x n.
Proof.
  destruct (N.testbit x n) eqn:Hb.
  - destruct (N.eqb_spec (N.land x (2 ^ n)) 0) as [E|]; [|reflexivity].
    apply (f_equal (fun y => N.testbit y n)) in E.
    rewrite N.land_spec, Hb, N.pow2_bits_eqb, N.eqb_refl in E. discriminate.
  - destruct (N.eqb_spec (N.land x (2 ^ n)) 0) as [|NE]; [reflexivity|].
    exfalso. apply NE. apply N.bits_inj. intros k.
    rewrite N.land_spec, N.pow2_bits_eqb, N.bits_0.
    destruct (N.eqb_spec n k) as [->|]; [rewrite Hb|]; apply andb_false_r || reflexivity.
Qed.

Lemma lor_bit_testbit x n t :
  N.testbit (N.lor x (2 ^ n)) t = (t =? n) || N.testbit x t.
Proof.
  rewrite N.lor_spec, N.pow2_bits_eqb, orb_comm. f_equal. apply N.eqb_sym.
Qed.

Lemma lor_lt_pow2 x y k : x < 2 ^ k -> y < 2 ^ k -> N.lor x y < 2 ^ k.
Proof.
  intros Hx Hy.
  destruct (N.eq_dec (N.lor x y) 0) as [->|NE].
  { apply N.neq_0_lt_0, N.pow_nonzero. discriminate. }
  apply N.log2_lt_pow2; [lia|]. rewrite N.log2_lor.
  destruct (N.eq_dec x 0) as [->|]; destruct (N.eq_dec y 0) as [->|].
  - exfalso. apply NE. reflexivity.
  - rewrite N.max_r by apply N.le_0_l. apply N.log2_lt_pow2; [lia|assumption].
  - rewrite N.max_l by apply N.le_0_l. apply N.log2_lt_pow2; [lia|assumption].
  - apply N.max_lub_lt; apply N.log2_lt_pow2; lia || assumption.
Qed.

Lemma testbit_above x k t : x < 2 ^ k -> k <= t -> N.testbit x t = false.
Proof.
  intros Hx Ht.
  destruct (N.eq_dec x 0) as [->|]; [apply N.bits_0|].
  apply N.bits_above_log2.
  apply N.lt_le_trans with k; [|assumption].
  apply N.log2_lt_pow2; [lia|assumption].
Qed.

End Bits.

(** ** Reading and writing the array of states *)

Section Layout.

Lemma state_at_Ok m i s : state_at m i = Ok s <-> states m !! N.to_nat i = Some s.
Proof.
  unfold state_at. destruct (states m !! N.to_nat i); split; congruence.
Qed.

Lemma layout_state_at m i :
  layout m -> i < state_nr m ->
  exists s, state_at m i = Ok s /\ id s = i /\ valid_target s < 2 ^ 32.
Proof.
  intros (Hlen & Hid & Hmask) Hi.
  destruct (lookup_lt_is_Some_2 (states m) (N.to_nat i)) as [s Hs]; [lia|].
  exists s. split; [by apply state_at_Ok|]. split.
  - apply (f_equal (fun l => l !! N.to_nat i)) in Hid.
    rewrite !list_lookup_fmap, Hs in Hid. simpl in Hid.
    destruct (seq 0 (length (states m)) !! N.to_nat i) as [j|] eqn:Hj; [|done].
    apply lookup_seq in Hj as [-> _]. simpl in Hid. injection Hid as ->. lia.
  - by eapply (Forall_lookup_1 _ _ _ _ Hmask).
Qed.

Lemma state_at_layout m i s :
  layout m -> state_at m i = Ok s ->
  i < state_nr m /\ id s = i /\ valid_target s < 2 ^ 32.
Proof.
  intros Hl Hs. apply state_at_Ok in Hs.
  assert (i < state_nr m) as Hi.
  { apply lookup_lt_Some in Hs. destruct Hl as [Hlen _]. lia. }
  destruct (layout_state_at m i Hl Hi) as (s' & Hs' & ? & ?).
  apply state_at_Ok in Hs'. by simplify_eq.
Qed.

Lemma state_at_store_eq m i s s0 :
  state_at m i = Ok s0 -> state_at (store_state i s m) i = Ok s.
Proof.
  intros H%state_at_Ok. apply state_at_Ok. simpl.
  apply list_lookup_insert_eq. by eapply lookup_lt_Some.
Qed.

Lemma state_at_store_ne m i j s :
  i <> j -> state_at (store_state i s m) j = state_at m j.
Proof.
  intros Hne. unfold state_at. simpl.
  rewrite list_lookup_insert_ne; [done|lia].
Qed.

Lemma layout_store m i s0 s :
  layout m -> state_at m i = Ok s0 ->
  id s = id s0 -> valid_target s < 2 ^ 32 ->
  layout (store_state i s m).
Proof.
  intros (Hlen & Hid & Hmask) Hs0%state_at_Ok Hids Hs.
  unfold layout. simpl. rewrite length_insert. split; [done|]. split.
  - rewrite list_fmap_insert, <- Hid. apply list_insert_id.
    by rewrite list_lookup_fmap, Hs0, Hids.
  - by apply Forall_insert.
Qed.

Lemma layout_set_actual_state m i : layout m -> layout (set_actual_state i m).
Proof. done. Qed.

Lemma layout_set_target_state m t : layout m -> layout (set_target_state t m).
Proof. done. Qed.

(** Whatever the arguments, [state_machine_init] lays the array out. *)
Lemma init_layout mp nr initial arg : layout (state_machine_init mp nr initial arg).
Proof.
  unfold layout. simpl. rewrite length_fmap, length_seq.
  split; [done|]. split.
  - by rewrite <- list_fmap_compose.
  - apply Forall_fmap, Forall_forall. intros j _. simpl. done.
Qed.

Lemma init_state_at mp nr initial arg i :
  i < nr ->
  state_at (state_machine_init mp nr initial arg) i =
    Ok {| id := i; valid_target := 0;
          private_data := {| enabled := false; run := run (mp i); enter := enter (mp i) |} |}.
Proof.
  intros Hi. apply state_at_Ok. simpl.
  rewrite list_lookup_fmap.
  rewrite (proj2 (lookup_seq 0 (N.to_nat nr) (N.to_nat i) (N.to_nat i)))
    by (split; lia).
  simpl. by rewrite N2Nat.id.
Qed.

End Layout.

(** ** Evaluation of the calls *)

Section Evaluation.

Lemma get_state_eval m cur :
  state_at m (actual_state m) = Ok cur ->
  state_machine_get_state (Some m) = Ok (id cur).
Proof. intros H. unfold state_machine_get_state. unfold_bind. by rewrite H. Qed.

Lemma run_stay m arg cur :
  state_at m (actual_state m) = Ok cur ->
  id cur = target_state m ->
  state_machine_run (Some m) arg =
    Ok (call_run (run (private_data cur)) arg, id cur, Some m).
Proof.
  intros Hcur Heq. unfold state_machine_run. unfold_bind.
  rewrite Hcur. by destruct (N.eqb_spec (id cur) (target_state m)).
Qed.

Lemma run_enter m arg cur new :
  state_at m (actual_state m) = Ok cur ->
  id cur <> target_state m ->
  state_at m (target_state m) = Ok new ->
  state_machine_run (Some m) arg =
    Ok (call_enter (enter (private_data new)) (id cur) arg, id new,
        Some (set_actual_state (target_state m) m)).
Proof.
  intros Hcur Hne Hnew. unfold state_machine_run, state_machine_get_state.
  unfold_bind. rewrite Hcur.
  destruct (N.eqb_spec (id cur) (target_state m)); [done|].
  change (state_at (set_actual_state (target_state m) m)
            (actual_state (set_actual_state (target_state m) m)))
    with (state_at m (target_state m)).
  by rewrite Hnew.
Qed.

Lemma go_to_state_invalid m t :
  state_nr m <= t -> state_machine_go_to_state (Some m) t = Ok (false, Some m).
Proof.
  intros Ht. unfold state_machine_go_to_state.
  by destruct (N.leb_spec (state_nr m) t); [|lia].
Qed.

Lemma go_to_state_eval m t cur :
  state_at m (actual_state m) = Ok cur ->
  t < state_nr m -> t < int_width ->
  state_machine_go_to_state (Some m) t =
    if allowed_target cur t then Ok (true, Some (set_target_state t m))
    else Ok (false, Some m).
Proof.
  intros Hcur Ht Hw. unfold state_machine_go_to_state. unfold_bind.
  destruct (N.leb_spec (state_nr m) t); [lia|]. rewrite Hcur.
  destruct (shl_int_bit t Hw) as (bit & -> & ->).
  by rewrite land_bit_testbit.
Qed.

Lemma go_to_state_wide m t cur :
  state_at m (actual_state m) = Ok cur ->
  t < state_nr m -> int_width <= t ->
  state_machine_go_to_state (Some m) t = Undefined ShiftTooWide.
Proof.
  intros Hcur Ht Hw. unfold state_machine_go_to_state. unfold_bind.
  destruct (N.leb_spec (state_nr m) t); [lia|]. rewrite Hcur.
  by rewrite shl_int_wide.
Qed.

(** What a returning request tells. *)
Lemma go_to_state_Ok m t r fsm' :
  state_machine_go_to_state (Some m) t = Ok (r, fsm') ->
  fsm' = Some (if r then set_target_state t m else m) /\
  (r = true ->
   t < state_nr m /\ t < int_width /\
   exists cur, state_at m (actual_state m) = Ok cur /\ allowed_target cur t = true).
Proof.
  unfold state_machine_go_to_state. unfold_bind.
  destruct (N.leb_spec (state_nr m) t) as [|Ht]; [by intros [= <- <-]|].
  destruct (state_at m (actual_state m)) as [cur|] eqn:Hcur; [|done].
  destruct (N.ltb_spec t int_width) as [Hw|Hw].
  - destruct (shl_int_bit t Hw) as (bit & -> & ->).
    rewrite land_bit_testbit.
    destruct (N.testbit (valid_target cur) t) eqn:Hb; intros [= <- <-]; [|done].
    split; [done|]. intros _. split_and!; [done..|]. by exists cur.
  - by rewrite shl_int_wide.
Qed.

Lemma add_transition_invalid m a b :
  state_nr m <= a \/ state_nr m <= b ->
  state_machine_add_transition (Some m) a b = Ok (false, Some m).
Proof.
  intros H. unfold state_machine_add_transition.
  destruct (N.leb_spec (state_nr m) a), (N.leb_spec (state_nr m) b); simpl;
    done || lia.
Qed.

Lemma add_transition_eval m a b s :
  a < state_nr m -> b < state_nr m -> b < int_width ->
  state_at m a = Ok s ->
  state_machine_add_transition (Some m) a b =
    Ok (true, Some (store_state a
          (set_valid_target (N.lor (valid_target s) (2 ^ b)) s) m)).
Proof.
  intros Ha Hb Hw Hs. unfold state_machine_add_transition. unfold_bind.
  destruct (N.leb_spec (state_nr m) a); [lia|].
  destruct (N.leb_spec (state_nr m) b); [lia|]. simpl. rewrite Hs.
  by destruct (shl_int_bit b Hw) as (bit & -> & ->).
Qed.

Lemma add_transition_wide m a b s :
  a < state_nr m -> b < state_nr m -> int_width <= b ->
  state_at m a = Ok s ->
  state_machine_add_transition (Some m) a b = Undefined ShiftTooWide.
Proof.
  intros Ha Hb Hw Hs. unfold state_machine_add_transition. unfold_bind.
  destruct (N.leb_spec (state_nr m) a); [lia|].
  destruct (N.leb_spec (state_nr m) b); [lia|]. simpl. rewrite Hs.
  by rewrite shl_int_wide.
Qed.

(** What a returning registration of an edge tells. *)
Lemma add_transition_Ok m a b r fsm' :
  state_machine_add_transition (Some m) a b = Ok (r, fsm') ->
  (r = false /\ fsm' = Some m /\ (state_nr m <= a \/ state_nr m <= b)) \/
  (r = true /\ a < state_nr m /\ b < state_nr m /\ b < int_width /\
   exists s, state_at m a = Ok s /\
     fsm' = Some (store_state a
              (set_valid_target (N.lor (valid_target s) (2 ^ b)) s) m)).
Proof.
  intros H.
  destruct (N.leb_spec (state_nr m) a) as [Ha|Ha].
  { rewrite add_transition_invalid in H by auto. injection H as <- <-. auto. }
  destruct (N.leb_spec (state_nr m) b) as [Hb|Hb].
  { rewrite add_transition_invalid in H by auto. injection H as <- <-. auto. }
  destruct (state_at m a) as [s|f] eqn:Hs.
  - destruct (N.ltb_spec b int_width) as [Hw|Hw].
    + rewrite (add_transition_eval m a b s) in H by done.
      injection H as <- <-. right. split_and!; [done..|]. by exists s.
    + by rewrite (add_transition_wide m a b s) in H.
  - revert H. unfold state_machine_add_transition. unfold_bind.
    destruct (N.leb_spec (state_nr m) a); [lia|].
    destruct (N.leb_spec (state_nr m) b); [lia|]. simpl. by rewrite Hs.
Qed.

Lemma add_state_invalid m i r e :
  state_nr m <= i -> state_machine_add_state (Some m) i r e = Ok (false, Some m).
Proof.
  intros Hi. unfold state_machine_add_state.
  by destruct (N.leb_spec (state_nr m) i); [|lia].
Qed.

Lemma add_state_eval m i r e s :
  i < state_nr m -> state_at m i = Ok s ->
  state_machine_add_state (Some m) i r e =
    if enabled (private_data s) then Ok (false, Some m)
    else Ok (true, Some (store_state i
           (set_private_data {| enabled := true; run := r; enter := e |} s) m)).
Proof.
  intros Hi Hs. unfold state_machine_add_state. unfold_bind.
  destruct (N.leb_spec (state_nr m) i); [lia|]. rewrite Hs.
  by destruct (enabled (private_data s)).
Qed.

(** What a returning registration of a state tells. *)
Lemma add_state_Ok m i r e b fsm' :
  state_machine_add_state (Some m) i r e = Ok (b, fsm') ->
  (b = false /\ fsm' = Some m) \/
  (b = true /\ i < state_nr m /\
   exists s, state_at m i = Ok s /\ enabled (private_data s) = false /\
     fsm' = Some (store_state i
              (set_private_data {| enabled := true; run := r; enter := e |} s) m)).
Proof.
  intros H.
  destruct (N.leb_spec (state_nr m) i) as [Hi|Hi].
  { rewrite add_state_invalid in H by done. injection H as <- <-. auto. }
  destruct (state_at m i) as [s|f] eqn:Hs.
  - rewrite (add_state_eval m i r e s) in H by done.
    destruct (enabled (private_data s)) eqn:Hen; injection H as <- <-; [auto|].
    right. split_and!; [done..|]. by exists s.
  - revert H. unfold state_machine_add_state. unfold_bind.
    destruct (N.leb_spec (state_nr m) i); [lia|]. by rewrite Hs.
Qed.

(** What a returning tick tells. *)
Lemma run_Ok m arg calls r fsm' :
  state_machine_run (Some m) arg = Ok (calls, r, fsm') ->
  exists cur, state_at m (actual_state m) = Ok cur /\
    ((id cur = target_state m /\ fsm' = Some m) \/
     (id cur <> target_state m /\
      fsm' = Some (set_actual_state (target_state m) m) /\
      exists new, state_at m (target_state m) = Ok new)).
Proof.
  intros H.
  destruct (state_at m (actual_state m)) as [cur|f] eqn:Hcur.
  - exists cur. split; [done|].
    destruct (N.eq_dec (id cur) (target_state m)) as [Heq|Hne].
    + rewrite (run_stay m arg cur) in H by done. injection H as <- <- <-. auto.
    + destruct (state_at m (target_state m)) as [new|f] eqn:Hnew.
      * rewrite (run_enter m arg cur new) in H by done.
        injection H as <- <- <-. right. split_and!; [done..|]. by exists new.
      * revert H. unfold state_machine_run, state_machine_get_state.
        unfold_bind. rewrite Hcur.
        destruct (N.eqb_spec (id cur) (target_state m)); [done|].
        change (state_at (set_actual_state (target_state m) m)
                  (actual_state (set_actual_state (target_state m) m)))
          with (state_at m (target_state m)).
        by rewrite Hnew.
  - revert H. unfold state_machine_run. unfold_bind. by rewrite Hcur.
Qed.

End Evaluation.

(** ** Invariants along the calls *)

Section Invariants.

Lemma step_state_nr m c m' : step m c m' -> state_nr m' = state_nr m.
Proof.
  destruct 1 as [i r e b m' H|a b r m' H|t r m' H|arg calls r m' H].
  - apply add_state_Ok in H as [(_ & [= ->])|(_ & _ & s & _ & _ & [= ->])]; done.
  - apply add_transition_Ok in H
      as [(_ & [= ->] & _)|(_ & _ & _ & _ & s & _ & [= ->])]; done.
  - apply go_to_state_Ok in H as [[= ->] _]. by destruct r.
  - apply run_Ok in H as (cur & _ & [(_ & [= ->])|(_ & [= ->] & _)]); done.
Qed.

Lemma step_layout m c m' : layout m -> step m c m' -> layout m'.
Proof.
  intros Hl.
  destruct 1 as [i r e b m' H|a b r m' H|t r m' H|arg calls r m' H].
  - apply add_state_Ok in H as [(_ & [= ->])|(_ & _ & s & Hs & _ & [= ->])];
      [done|].
    apply (layout_store m i s); [done..|].
    by destruct (state_at_layout m i s Hl Hs) as (_ & _ & ?).
  - apply add_transition_Ok in H
      as [(_ & [= ->] & _)|(_ & _ & _ & Hw & s & Hs & [= ->])]; [done|].
    apply (layout_store m a s); [done..|]. simpl.
    destruct (state_at_layout m a s Hl Hs) as (_ & _ & ?).
    apply lor_lt_pow2; [done|].
    apply N.pow_lt_mono_r; [lia|exact Hw].
  - apply go_to_state_Ok in H as [[= ->] _]. by destruct r.
  - apply run_Ok in H as (cur & _ & [(_ & [= ->])|(_ & [= ->] & _)]); done.
Qed.

Lemma step_in_range m c m' : layout m -> in_range m -> step m c m' -> in_range m'.
Proof.
  intros Hl [Ha Ht].
  destruct 1 as [i r e b m' H|a b r m' H|t r m' H|arg calls r m' H].
  - apply add_state_Ok in H as [(_ & [= ->])|(_ & _ & s & _ & _ & [= ->])]; done.
  - apply add_transition_Ok in H
      as [(_ & [= ->] & _)|(_ & _ & _ & _ & s & _ & [= ->])]; done.
  - apply go_to_state_Ok in H as [[= ->] Hr]. destruct r; [|done].
    destruct Hr as (? & _); done.
  - apply run_Ok in H as (cur & _ & [(_ & [= ->])|(_ & [= ->] & _)]); done.
Qed.

Lemma step_inv m c m' : fsm_inv m -> step m c m' -> fsm_inv m'.
Proof.
  intros [Hl Hr] Hs. split; [by eapply step_layout|by eapply step_in_range].
Qed.

Lemma steps_inv m cs m' : fsm_inv m -> steps m cs m' -> fsm_inv m'.
Proof.
  intros Hm Hs. induction Hs as [|m c cs m1 m2 H1 _ IH]; [done|].
  apply IH. by eapply step_inv.
Qed.

Lemma init_in_range mp nr initial arg :
  in_range (state_machine_init mp nr initial arg) <-> initial < nr.
Proof. unfold in_range. simpl. tauto. Qed.

Lemma init_inv mp nr initial arg :
  initial < nr -> fsm_inv (state_machine_init mp nr initial arg).
Proof. intros H. split; [apply init_layout|by apply init_in_range]. Qed.

(** A machine created with an initial state below [state_nr] stays in
    range whatever the driver calls. *)
Lemma reachable_inv mp nr initial arg cs m :
  initial < nr ->
  steps (state_machine_init mp nr initial arg) cs m -> fsm_inv m.
Proof. intros H. apply steps_inv. by apply init_inv. Qed.

(** The callbacks of an enabled state are never written again. *)
Lemma step_enabled m c m' i s :
  step m c m' ->
  state_at m i = Ok s -> enabled (private_data s) = true ->
  exists s', state_at m' i = Ok s' /\ private_data s' = private_data s.
Proof.
  intros Hstep Hs Hen.
  destruct Hstep as [j r e b m' H|a b r m' H|t r m' H|arg calls r m' H].
  - apply add_state_Ok in H as [(_ & [= ->])|(_ & _ & sj & Hj & Hdis & [= ->])];
      [by exists s|].
    destruct (N.eq_dec j i) as [->|Hne].
    + congruence.
    + exists s. by rewrite state_at_store_ne.
  - apply add_transition_Ok in H
      as [(_ & [= ->] & _)|(_ & _ & _ & _ & sa & Ha & [= ->])]; [by exists s|].
    destruct (N.eq_dec a i) as [->|Hne].
    + eexists. split; [by eapply state_at_store_eq|]. simpl. congruence.
    + exists s. by rewrite state_at_store_ne.
  - apply go_to_state_Ok in H as [[= ->] _]. exists s. by destruct r.
  - apply run_Ok in H as (cur & _ & [(_ & [= ->])|(_ & [= ->] & _)]); by exists s.
Qed.

Lemma steps_enabled m cs m' i s :
  steps m cs m' ->
  state_at m i = Ok s -> enabled (private_data s) = true ->
  exists s', state_at m' i = Ok s' /\ private_data s' = private_data s.
Proof.
  intros Hsteps. revert s.
  induction Hsteps as [|m c cs m1 m2 H1 _ IH]; intros s Hs Hen; [by exists s|].
  destruct (step_enabled m c m1 i s H1 Hs Hen) as (s1 & Hs1 & Hp1).
  destruct (IH s1 Hs1) as (s2 & Hs2 & Hp2); [congruence|].
  exists s2. split; [done|congruence].
Qed.

Lemma steps_state_nr m cs m' : steps m cs m' -> state_nr m' = state_nr m.
Proof.
  induction 1 as [|m c cs m1 m2 H1 _ IH]; [done|].
  rewrite IH. by eapply step_state_nr.
Qed.

End Invariants.

(** ** Construction *)

(** C7. For every [state_nr] and every [initial_state < state_nr], right
    after [state_machine_init] the accessor [get_state] returns
    [initial_state], the target equals the identity of the current state (no
    transition is pending), and the array holds [state_nr] states, each with
    its index as identity, disabled and without any allowed target. *)
Theorem init_postcondition (malloc_private : N -> state_private_t)
    (state_nr initial_state : N) (arg : pointer) :
  initial_state < state_nr ->
  let m := state_machine_init malloc_private state_nr initial_state arg in
  state_machine_get_state (Some m) = Ok initial_state /\
  target_state m = initial_state /\
  length (states m) = N.to_nat state_nr /\
  forall i, i < state_nr ->
    exists s, state_at m i = Ok s /\
      id s = i /\
      enabled (private_data s) = false /\
      valid_target s = 0 /\
      forall t, allowed_target s t = false.
Proof.
  intros Hinit m. split_and!.
  - unfold m. erewrite get_state_eval; [|by apply init_state_at]. done.
  - done.
  - unfold m. simpl. by rewrite length_fmap, length_seq.
  - intros i Hi. eexists. split; [by apply init_state_at|].
    split_and!; [done..|]. intros t. apply N.bits_0.
Qed.

Lemma init_postcondition_witness :
  0 < 3 /\
  let m := state_machine_init no_callbacks 3 0 NULL in
  state_machine_get_state (Some m) = Ok 0 /\
  target_state m = 0 /\
  length (states m) = N.to_nat 3 /\
  forall i, i < 3 ->
    exists s, state_at m i = Ok s /\
      id s = i /\
      enabled (private_data s) = false /\
      valid_target s = 0 /\
      forall t, allowed_target s t = false.
Proof.
  split; [reflexivity|].
  apply (init_postcondition no_callbacks 3 0 NULL). reflexivity.
Defined.

(** C6. The range invariant does not hold right after
    [state_machine_init (3, 5, NULL)]: the target is [5] in a machine of
    three states, the current state is outside the array, and both
    [get_state] and [run] read outside it. *)
Theorem init_initial_state_unchecked :
  state_nr stray_machine = 3 /\
  target_state stray_machine = 5 /\
  actual_state stray_machine = 5 /\
  ~ in_range stray_machine /\
  state_machine_get_state (Some stray_machine) = Undefined OutOfBounds /\
  state_machine_run (Some stray_machine) NULL = Undefined OutOfBounds.
Proof.
  split_and!; try reflexivity.
  unfold stray_machine. rewrite init_in_range. lia.
Qed.

(** ** Tick *)

(** C1. On a machine just created, whose states were never registered,
    [run] calls the word [malloc] left in the [run] field of the current
    state, and, after a request, the word left in the [enter] field of the
    state entered: [state_machine_init] writes [enabled] only and [run]
    never reads it. *)
Theorem run_unregistered_state :
  state_at fresh_machine 0 = Ok (mk_state 0 0 (mk_private false 4096 8192)) /\
  state_at fresh_machine 1 = Ok (mk_state 1 0 (mk_private false 4096 8192)) /\
  state_machine_run (Some fresh_machine) 7
    = Ok ([CallRun 4096 7], 0, Some fresh_machine) /\
  ('(_, fsm) ← state_machine_add_transition (Some fresh_machine) 0 1;
   '(_, fsm) ← state_machine_go_to_state fsm 1;
   '(calls, r, _) ← state_machine_run fsm 7;
   Ok (calls, r))
  = Ok ([CallEnter 8192 0 7], 1).
Proof. split_and!; reflexivity. Qed.

(** X16. On every machine that satisfies the invariant: when the identity
    of the current state equals the target, [run] calls the pointer held in
    the [run] field of the current state, once and with [arg], unless that
    pointer is [NULL], leaves the machine as it is and returns the current
    identity; otherwise it makes [states[target]] the current state, calls
    the pointer held in the [enter] field of that state, once and with the
    identity of the state left and [arg], unless that pointer is [NULL], and
    returns the new current identity.  A further [run] on the machine so
    entered calls the [run] pointer of the new state and stays. *)
Theorem run_dispatch (m : fsm_t) (arg : pointer) :
  fsm_inv m ->
  exists cur new,
    state_at m (actual_state m) = Ok cur /\
    state_at m (target_state m) = Ok new /\
    id cur = actual_state m /\ id new = target_state m /\
    (id cur = target_state m ->
     state_machine_run (Some m) arg =
       Ok (if run (private_data cur) =? NULL then []
           else [CallRun (run (private_data cur)) arg],
           id cur, Some m)) /\
    (id cur <> target_state m ->
     state_machine_run (Some m) arg =
       Ok (if enter (private_data new) =? NULL then []
           else [CallEnter (enter (private_data new)) (id cur) arg],
           id new, Some (set_actual_state (target_state m) m))) /\
    forall arg',
      state_machine_run (Some (set_actual_state (target_state m) m)) arg' =
        Ok (if run (private_data new) =? NULL then []
            else [CallRun (run (private_data new)) arg'],
            id new, Some (set_actual_state (target_state m) m)).
Proof.
  intros [Hl [Ha Ht]].
  destruct (layout_state_at m _ Hl Ha) as (cur & Hcur & Hidc & _).
  destruct (layout_state_at m _ Hl Ht) as (new & Hnew & Hidn & _).
  exists cur, new. split_and!; [done..| | |].
  - intros Heq. by apply run_stay.
  - intros Hne. by apply run_enter.
  - intros arg'. by apply run_stay.
Qed.

Lemma run_dispatch_witness :
  let m := set_target_state 1 scenario_machine in
  fsm_inv m /\
  state_machine_run (Some m) 7
    = Ok ([CallEnter 201 0 7], 1, Some (set_actual_state 1 m)) /\
  state_machine_run (Some (set_actual_state 1 m)) 7
    = Ok ([CallRun 101 7], 1, Some (set_actual_state 1 m)).
Proof.
  intros m.
  assert (fsm_inv m) as H
    by (apply (bool_decide_unpack _); vm_compute; exact I).
  destruct (run_dispatch m 7 H)
    as (cur & new & Hcur & Hnew & _ & _ & _ & Henter & Hsteady).
  vm_compute in Hcur. injection Hcur as <-.
  vm_compute in Hnew. injection Hnew as <-.
  assert (1 <> 0) as Hne by (intros Heq; discriminate Heq).
  split_and!; [exact H| |].
  - exact (Henter (fun Heq => Hne (eq_sym Heq))).
  - exact (Hsteady 7).
Defined.

(** ** Registration of states *)

(** C3. On every machine whose array is laid out: [add_state] with an
    identity not below [state_nr] fails and changes nothing; on an identity
    whose flag [enabled] is already set it fails and changes nothing, so the
    callbacks stored before stay; otherwise it sets [enabled] and stores
    both callbacks.  After a success, whatever calls the driver makes, the
    callbacks stored for that identity stay and every further [add_state]
    for it fails: a registration succeeds once per identity. *)
Theorem add_state_once (m : fsm_t) (i : N)
    (r : fsm_state_run_t) (e : fsm_state_enter_t) :
  layout m ->
  (state_nr m <= i ->
   state_machine_add_state (Some m) i r e = Ok (false, Some m)) /\
  (i < state_nr m ->
   exists s, state_at m i = Ok s /\
     state_machine_add_state (Some m) i r e =
       if enabled (private_data s) then Ok (false, Some m)
       else Ok (true, Some (store_state i
              (set_private_data {| enabled := true; run := r; enter := e |} s) m))) /\
  (forall m1,
     state_machine_add_state (Some m) i r e = Ok (true, Some m1) ->
     forall cs m2, steps m1 cs m2 ->
       (exists s2, state_at m2 i = Ok s2 /\
          private_data s2 = {| enabled := true; run := r; enter := e |}) /\
       forall r' e',
         state_machine_add_state (Some m2) i r' e' = Ok (false, Some m2)).
Proof.
  intros Hl. split_and!.
  - apply add_state_invalid.
  - intros Hi. destruct (layout_state_at m i Hl Hi) as (s & Hs & _).
    exists s. split; [done|]. by apply add_state_eval.
  - intros m1 H cs m2 Hsteps.
    apply add_state_Ok in H as [[[=] _]|(_ & Hi & s & Hs & _ & [= ->])].
    set (s1 := set_private_data {| enabled := true; run := r; enter := e |} s).
    assert (state_at (store_state i s1 m) i = Ok s1) as Hs1
      by (by eapply state_at_store_eq).
    destruct (steps_enabled _ cs m2 i s1 Hsteps Hs1 eq_refl) as (s2 & Hs2 & Hp).
    split; [by exists s2|]. intros r' e'.
    rewrite (add_state_eval m2 i r' e' s2); [|
      by rewrite (steps_state_nr _ _ _ Hsteps) | done].
    by rewrite Hp.
Qed.

Lemma add_state_once_witness :
  let m := state_machine_init no_callbacks 3 0 NULL in
  let m1 := store_state 1 (mk_state 1 0 (mk_private true 101 201)) m in
  layout m /\
  state_machine_add_state (Some m) 1 101 201 = Ok (true, Some m1) /\
  steps m1 [] m1 /\
  forall r' e', state_machine_add_state (Some m1) 1 r' e' = Ok (false, Some m1).
Proof.
  intros m m1.
  assert (layout m) as H by (apply (bool_decide_unpack _); vm_compute; exact I).
  assert (state_machine_add_state (Some m) 1 101 201 = Ok (true, Some m1))
    as Hadd by reflexivity.
  split_and!; [exact H|exact Hadd|constructor|].
  exact (proj2 (proj2 (proj2 (add_state_once m 1 101 201 H))
                  m1 Hadd [] m1 (steps_nil m1))).
Defined.

(** ** Absent machine *)

(** C8. With [NULL] for the machine, [add_state] and [go_to_state] return
    [(bool)(-1)], which is [true]; [add_transition] dereferences [NULL]; and
    [run] returns [(uint32_t)(-1)]. *)
Theorem null_machine_calls :
  state_machine_add_state None 0 NULL NULL = Ok (true, None) /\
  (forall i r e, state_machine_add_state None i r e = Ok (true, None)) /\
  (forall t, state_machine_go_to_state None t = Ok (true, None)) /\
  (forall a b, state_machine_add_transition None a b = Undefined NullDereference) /\
  (forall arg, state_machine_run None arg = Ok ([], 4294967295, None)).
Proof. split_and!; reflexivity. Qed.

(** ** Transition request *)

(** C2, as the claim has it, fails on a machine of 33 states whose current
    state [0] has the edge [0 -> 0]: the request for [32] passes the test
    against [state_nr] and shifts [0x1] by 32. *)
Lemma go_to_state_wide_counterexample :
  fsm_inv wide_machine_loop /\
  state_machine_add_transition (Some wide_machine) 0 0
    = Ok (true, Some wide_machine_loop) /\
  state_machine_go_to_state (Some wide_machine_loop) 32 = Undefined ShiftTooWide /\
  ~ go_to_state_spec wide_machine_loop 32.
Proof.
  split_and!.
  - apply (bool_decide_unpack _). vm_compute. exact I.
  - reflexivity.
  - reflexivity.
  - intros (cur & _ & H).
    change (state_machine_go_to_state (Some wide_machine_loop) 32)
      with (@Undefined (bool * option fsm_t) ShiftTooWide) in H.
    by destruct ((32 <? state_nr wide_machine_loop) && allowed_target cur 32).
Qed.

(** C2, amended. On every machine that satisfies the invariant and for
    every [target_id] that is below the 32 bits of the mask whenever it is
    below [state_nr]: [go_to_state] succeeds if and only if [target_id] is
    below [state_nr] and in the set of allowed targets of the current state;
    a failure leaves the machine, hence the target, as it was; a success
    sets the target to [target_id]; the current state is the same
    afterwards in both cases. *)
Theorem go_to_state_request (m : fsm_t) (target_id : N) :
  fsm_inv m ->
  (target_id < state_nr m -> target_id < int_width) ->
  go_to_state_spec m target_id.
Proof.
  intros [Hl [Ha _]] Hw.
  destruct (layout_state_at m _ Hl Ha) as (cur & Hcur & _).
  exists cur. split; [done|].
  destruct (N.ltb_spec target_id (state_nr m)) as [Ht|Ht]; cbn [andb].
  - by apply go_to_state_eval; [| |apply Hw].
  - by apply go_to_state_invalid.
Qed.

Lemma go_to_state_request_witness :
  fsm_inv scenario_machine /\
  (1 < state_nr scenario_machine -> 1 < int_width) /\
  go_to_state_spec scenario_machine 1.
Proof.
  assert (fsm_inv scenario_machine) as H
    by (apply (bool_decide_unpack _); vm_compute; exact I).
  assert (1 < state_nr scenario_machine -> 1 < int_width) as Hw
    by (intros _; reflexivity).
  split_and!; [exact H|exact Hw|].
  exact (go_to_state_request scenario_machine 1 H Hw).
Defined.

(** ** Registration of edges *)

(** C4, as the claim has it, fails on a machine of 33 states: both [0] and
    [32] are below [state_nr], and [add_transition (0, 32)] shifts [0x1] by
    32; the mask has no bit for [32]. *)
Lemma add_transition_wide_counterexample :
  layout wide_machine /\
  state_machine_add_transition (Some wide_machine) 0 32 = Undefined ShiftTooWide /\
  ~ add_transition_spec wide_machine 0 32.
Proof.
  split_and!.
  - apply init_layout.
  - reflexivity.
  - unfold add_transition_spec.
    change ((0 <? state_nr wide_machine) && (32 <? state_nr wide_machine))
      with true.
    cbv iota. intros (m' & s' & H & _). discriminate H.
Qed.

(** C4, amended. On every machine whose array is laid out and for all
    [state_id], [target_id] such that [target_id] is below the 32 bits of
    the mask whenever both are below [state_nr]: [add_transition] succeeds
    if and only if both identities are below [state_nr]; after a success
    [target_id] is in the set of allowed targets of [state_id], so that a
    request for [target_id] made while [state_id] is current succeeds; when
    an identity is out of range the call fails and changes nothing. *)
Theorem add_transition_registers (m : fsm_t) (state_id target_id : N) :
  layout m ->
  (state_id < state_nr m -> target_id < state_nr m -> target_id < int_width) ->
  add_transition_spec m state_id target_id.
Proof.
  intros Hl Hw. unfold add_transition_spec.
  destruct (N.ltb_spec state_id (state_nr m)) as [Ha|Ha];
    [destruct (N.ltb_spec target_id (state_nr m)) as [Hb|Hb]|]; cbn [andb].
  - destruct (layout_state_at m state_id Hl Ha) as (s & Hs & _).
    set (s' := set_valid_target (N.lor (valid_target s) (2 ^ target_id)) s).
    exists (store_state state_id s' m), s'.
    assert (allowed_target s' target_id = true) as Hbit.
    { unfold allowed_target, s'. simpl.
      by rewrite lor_bit_testbit, N.eqb_refl. }
    assert (state_at (store_state state_id s' m) state_id = Ok s') as Hs'
      by (by eapply state_at_store_eq).
    split_and!; [by apply add_transition_eval; [| |apply Hw|]|done..|].
    intros Hact.
    rewrite (go_to_state_eval _ target_id s'); [by rewrite Hbit| |done|by apply Hw].
    by rewrite Hact.
  - apply add_transition_invalid. by right.
  - apply add_transition_invalid. by left.
Qed.

Lemma add_transition_registers_witness :
  layout scenario_machine /\
  (0 < state_nr scenario_machine -> 2 < state_nr scenario_machine ->
   2 < int_width) /\
  add_transition_spec scenario_machine 0 2.
Proof.
  assert (layout scenario_machine) as H
    by (apply (bool_decide_unpack _); vm_compute; exact I).
  assert (0 < state_nr scenario_machine -> 2 < state_nr scenario_machine ->
          2 < int_width) as Hw by (intros _ _; reflexivity).
  split_and!; [exact H|exact Hw|].
  exact (add_transition_registers scenario_machine 0 2 H Hw).
Defined.

(** C5, as the claim has it, fails on a machine of 33 states: [0] and [32]
    are identities below [state_nr], and no call of [add_transition (0, 32)]
    reports success: the first one shifts [0x1] by 32. *)
Lemma add_transition_twice_counterexample :
  layout wide_machine /\
  0 < state_nr wide_machine /\ 32 < state_nr wide_machine /\
  state_machine_add_transition (Some wide_machine) 0 32 = Undefined ShiftTooWide /\
  ~ add_transition_twice_spec wide_machine 0 32.
Proof.
  split_and!.
  - apply init_layout.
  - reflexivity.
  - reflexivity.
  - reflexivity.
  - intros H. destruct (H eq_refl eq_refl) as (m1 & H1 & _). discriminate H1.
Qed.

(** C5, amended. On every machine whose array is laid out and for all
    identities [state_id], [target_id] such that [target_id] is below the
    32 bits of the mask whenever both are below [state_nr]: for identities
    below [state_nr] the first [add_transition] reports success, and the
    second one, made on the machine the first has left, reports success and
    leaves that machine exactly as it is, mask and dispatch included. *)
Theorem add_transition_twice (m : fsm_t) (state_id target_id : N) :
  layout m ->
  (state_id < state_nr m -> target_id < state_nr m -> target_id < int_width) ->
  add_transition_twice_spec m state_id target_id.
Proof.
  intros Hl Hw Ha Hb. specialize (Hw Ha Hb).
  destruct (layout_state_at m state_id Hl Ha) as (s & Hs & _).
  set (s' := set_valid_target (N.lor (valid_target s) (2 ^ target_id)) s).
  exists (store_state state_id s' m). split.
  - by apply add_transition_eval.
  - rewrite (add_transition_eval _ state_id target_id s');
      [|done..|by eapply state_at_store_eq].
    do 3 f_equal. unfold store_state, set_states, s'. simpl.
    rewrite list_insert_insert_eq.
    by rewrite <- N.lor_assoc, N.lor_diag.
Qed.

Lemma add_transition_twice_witness :
  layout scenario_machine /\
  (0 < state_nr scenario_machine -> 2 < state_nr scenario_machine ->
   2 < int_width) /\
  0 < state_nr scenario_machine /\ 2 < state_nr scenario_machine /\
  exists m1,
    state_machine_add_transition (Some scenario_machine) 0 2 = Ok (true, Some m1) /\
    state_machine_add_transition (Some m1) 0 2 = Ok (true, Some m1).
Proof.
  assert (layout scenario_machine) as H
    by (apply (bool_decide_unpack _); vm_compute; exact I).
  assert (0 < state_nr scenario_machine -> 2 < state_nr scenario_machine ->
          2 < int_width) as Hw by (intros _ _; reflexivity).
  split_and!; [exact H|exact Hw|reflexivity|reflexivity|].
  exact (add_transition_twice scenario_machine 0 2 H Hw eq_refl eq_refl).
Defined.

(** ** Requests and the next tick *)

(** C9. On every machine that satisfies the invariant and whose current
    state has its own identity among its allowed targets: the request for
    that identity succeeds and sets the target to it, so target and current
    identity are equal; the next [run] stays: its calls are the one call of
    the [run] callback of the state with [arg], or none when that callback
    is [NULL], and so never a call of an [enter] callback. *)
Theorem self_transition_stays (m : fsm_t) (cur : fsm_state_t) (arg : pointer) :
  fsm_inv m ->
  state_at m (actual_state m) = Ok cur ->
  allowed_target cur (id cur) = true ->
  let m' := set_target_state (id cur) m in
  state_machine_go_to_state (Some m) (id cur) = Ok (true, Some m') /\
  target_state m' = id cur /\
  state_machine_get_state (Some m') = Ok (id cur) /\
  state_machine_run (Some m') arg
    = Ok (if run (private_data cur) =? NULL then []
          else [CallRun (run (private_data cur)) arg],
          id cur, Some m') /\
  forall calls r fsm',
    state_machine_run (Some m') arg = Ok (calls, r, fsm') ->
    forall f exit_id par, CallEnter f exit_id par ∉ calls.
Proof.
  intros [Hl [Ha _]] Hcur Hself m'.
  destruct (state_at_layout m _ cur Hl Hcur) as (_ & Hid & Hmask).
  assert (id cur < int_width) as Hw.
  { destruct (N.ltb_spec (id cur) int_width) as [|Hge]; [done|].
    unfold allowed_target in Hself.
    by rewrite (testbit_above _ 32 (id cur) Hmask Hge) in Hself. }
  assert (state_machine_run (Some m') arg
    = Ok (if run (private_data cur) =? NULL then []
          else [CallRun (run (private_data cur)) arg],
          id cur, Some m')) as Hrun by (by apply run_stay).
  split_and!.
  - rewrite (go_to_state_eval m (id cur) cur); [by rewrite Hself|done| |done].
    by rewrite Hid.
  - done.
  - by apply get_state_eval.
  - exact Hrun.
  - intros calls r fsm' H f exit_id par. rewrite Hrun in H.
    injection H as <- _ _.
    destruct (run (private_data cur) =? NULL).
    + apply not_elem_of_nil.
    + by intros Hin%list_elem_of_singleton.
Qed.

Lemma self_transition_stays_witness :
  let cur := mk_state 0 3 (mk_private true 100 200) in
  fsm_inv loop_machine /\
  state_at loop_machine (actual_state loop_machine) = Ok cur /\
  allowed_target cur (id cur) = true /\
  state_machine_go_to_state (Some loop_machine) 0
    = Ok (true, Some (set_target_state 0 loop_machine)) /\
  state_machine_run (Some (set_target_state 0 loop_machine)) 7
    = Ok ([CallRun 100 7], 0, Some (set_target_state 0 loop_machine)).
Proof.
  intros cur.
  assert (fsm_inv loop_machine) as H
    by (apply (bool_decide_unpack _); vm_compute; exact I).
  assert (state_at loop_machine (actual_state loop_machine) = Ok cur)
    as Hcur by reflexivity.
  assert (allowed_target cur (id cur) = true) as Hself by reflexivity.
  split_and!; [exact H|exact Hcur|exact Hself| |].
  - exact (proj1 (self_transition_stays loop_machine cur 7 H Hcur Hself)).
  - exact (proj1 (proj2 (proj2 (proj2
      (self_transition_stays loop_machine cur 7 H Hcur Hself))))).
Defined.

(** C10. On every machine that satisfies the invariant, after a request
    for [b] has succeeded and before any [run]: a second request, for [c],
    succeeds if and only if [c] is below [state_nr] and among the allowed
    targets of the state that is still current (the set of [b] plays no
    part); when it succeeds the target is [c] and the current state is
    still the same, and, [c] being another state than the current one, the
    next [run] makes [c] current and returns it, and its calls are the one
    call of the [enter] callback of [c] with the identity of the state left
    and [arg], or none when that callback is [NULL]: nothing of [b] is
    called. *)
Theorem pending_target_replaced (m m1 : fsm_t) (cur : fsm_state_t)
    (b c : N) (arg : pointer) :
  fsm_inv m ->
  state_at m (actual_state m) = Ok cur ->
  state_machine_go_to_state (Some m) b = Ok (true, Some m1) ->
  ((exists m2, state_machine_go_to_state (Some m1) c = Ok (true, Some m2))
   <-> c < state_nr m /\ allowed_target cur c = true) /\
  forall m2,
    state_machine_go_to_state (Some m1) c = Ok (true, Some m2) ->
    target_state m2 = c /\
    state_machine_get_state (Some m2) = Ok (id cur) /\
    (c <> id cur ->
     exists new,
       state_at m c = Ok new /\
       state_machine_run (Some m2) arg
         = Ok (if enter (private_data new) =? NULL then []
               else [CallEnter (enter (private_data new)) (id cur) arg],
               c, Some (set_actual_state c m2))).
Proof.
  intros [Hl [Ha _]] Hcur Hb.
  apply go_to_state_Ok in Hb as [[= ->] _].
  destruct (state_at_layout m _ cur Hl Hcur) as (_ & Hid & Hmask).
  assert (state_at (set_target_state b m)
            (actual_state (set_target_state b m)) = Ok cur) as Hcur1 by done.
  split.
  - split.
    + intros [m2 H]. apply go_to_state_Ok in H as [_ H].
      destruct (H eq_refl) as (Hc & _ & cur' & Hcur' & Hbit).
      split; [done|]. congruence.
    + intros [Hc Hbit].
      assert (c < int_width) as Hw.
      { destruct (N.ltb_spec c int_width) as [|Hge]; [done|].
        unfold allowed_target in Hbit.
        by rewrite (testbit_above _ 32 c Hmask Hge) in Hbit. }
      eexists. rewrite (go_to_state_eval _ c cur Hcur1); [|done..].
      by rewrite Hbit.
  - intros m2 H. apply go_to_state_Ok in H as [[= ->] H].
    destruct (H eq_refl) as (Hc & _ & _).
    split_and!; [done|by apply get_state_eval|].
    intros Hne.
    destruct (layout_state_at m c Hl Hc) as (new & Hnew & Hidn & _).
    exists new. split; [done|].
    rewrite (run_enter _ arg cur new); [by rewrite Hidn|done| |done].
    simpl. congruence.
Qed.

Lemma pending_target_replaced_witness :
  let cur := mk_state 0 6 (mk_private true 100 200) in
  fsm_inv fork_machine /\
  state_at fork_machine (actual_state fork_machine) = Ok cur /\
  state_machine_go_to_state (Some fork_machine) 1
    = Ok (true, Some (set_target_state 1 fork_machine)) /\
  state_machine_go_to_state (Some (set_target_state 1 fork_machine)) 2
    = Ok (true, Some (set_target_state 2 fork_machine)) /\
  2 <> id cur /\
  exists new,
    state_at fork_machine 2 = Ok new /\
    state_machine_run (Some (set_target_state 2 fork_machine)) 7
      = Ok (if enter (private_data new) =? NULL then []
            else [CallEnter (enter (private_data new)) (id cur) 7],
            2, Some (set_actual_state 2 (set_target_state 2 fork_machine))).
Proof.
  intros cur.
  assert (fsm_inv fork_machine) as H
    by (apply (bool_decide_unpack _); vm_compute; exact I).
  assert (state_at fork_machine (actual_state fork_machine) = Ok cur)
    as Hcur by reflexivity.
  assert (state_machine_go_to_state (Some fork_machine) 1
          = Ok (true, Some (set_target_state 1 fork_machine))) as Hb
    by reflexivity.
  assert (state_machine_go_to_state (Some (set_target_state 1 fork_machine)) 2
          = Ok (true, Some (set_target_state 2 fork_machine))) as Hc
    by reflexivity.
  assert (2 <> id cur) as Hne by (intros Heq; discriminate Heq).
  split_and!; [exact H|exact Hcur|exact Hb|exact Hc|exact Hne|].
  exact (proj2 (proj2 (proj2
    (pending_target_replaced fork_machine _ cur 1 2 7 H Hcur Hb) _ Hc)) Hne).
Defined.

Example fork_machine_replaced :
  ('(_, fsm) ← state_machine_go_to_state (Some fork_machine) 1;
   '(_, fsm) ← state_machine_go_to_state fsm 2;
   '(calls, r, _) ← state_machine_run fsm 7;
   Ok (calls, r))
  = Ok ([CallEnter 202 0 7], 2).
Proof. reflexivity. Qed.

(** ** What a call writes *)

(** Each call and the fields it writes. *)
Lemma step_frame (m m' : fsm_t) (c : call) :
  step m c m' ->
  state_nr m' = state_nr m /\
  length (states m') = length (states m) /\
  match c with
  | AddState i _ _ =>
      actual_state m' = actual_state m /\ target_state m' = target_state m /\
      forall j s, state_at m j = Ok s ->
        exists s', state_at m' j = Ok s' /\ id s' = id s /\
          valid_target s' = valid_target s /\
          (j <> i -> private_data s' = private_data s)
  | AddTransition a _ =>
      actual_state m' = actual_state m /\ target_state m' = target_state m /\
      forall j s, state_at m j = Ok s ->
        exists s', state_at m' j = Ok s' /\ id s' = id s /\
          private_data s' = private_data s /\
          (j <> a -> valid_target s' = valid_target s)
  | GoToState _ => actual_state m' = actual_state m /\ states m' = states m
  | Run _ => target_state m' = target_state m /\ states m' = states m
  end.
Proof.
  destruct 1 as [i r e b m' H|a b r m' H|t r m' H|arg calls r m' H].
  - apply add_state_Ok in H as [(_ & [= ->])|(_ & _ & si & Hi & _ & [= ->])].
    + split_and!; [done..|]. intros j s Hs. exists s. by split_and!.
    + split_and!; [done|simpl; by rewrite length_insert|done..|].
      intros j s Hs. destruct (N.eq_dec j i) as [->|Hne].
      * eexists. split; [by eapply state_at_store_eq|].
        assert (s = si) as -> by congruence. by split_and!.
      * exists s. split; [by rewrite state_at_store_ne|]. by split_and!.
  - apply add_transition_Ok in H
      as [(_ & [= ->] & _)|(_ & _ & _ & _ & sa & Ha & [= ->])].
    + split_and!; [done..|]. intros j s Hs. exists s. by split_and!.
    + split_and!; [done|simpl; by rewrite length_insert|done..|].
      intros j s Hs. destruct (N.eq_dec j a) as [->|Hne].
      * eexists. split; [by eapply state_at_store_eq|].
        assert (s = sa) as -> by congruence. by split_and!.
      * exists s. split; [by rewrite state_at_store_ne|]. by split_and!.
  - apply go_to_state_Ok in H as [[= ->] _]. by destruct r.
  - apply run_Ok in H as (cur & _ & [(_ & [= ->])|(_ & [= ->] & _)]); done.
Qed.

(** X1. A call that returns writes one thing only: [add_state] the private
    data of the state it names, [add_transition] the mask of its source
    state, [go_to_state] the target, [run] the current state.  The number of
    states, the array length and the identities of the states are never
    written. *)
Theorem call_frame (m m' : fsm_t) (c : call) :
  step m c m' ->
  state_nr m' = state_nr m /\
  length (states m') = length (states m) /\
  match c with
  | AddState i _ _ =>
      actual_state m' = actual_state m /\ target_state m' = target_state m /\
      forall j s, state_at m j = Ok s ->
        exists s', state_at m' j = Ok s' /\ id s' = id s /\
          valid_target s' = valid_target s /\
          (j <> i -> private_data s' = private_data s)
  | AddTransition a _ =>
      actual_state m' = actual_state m /\ target_state m' = target_state m /\
      forall j s, state_at m j = Ok s ->
        exists s', state_at m' j = Ok s' /\ id s' = id s /\
          private_data s' = private_data s /\
          (j <> a -> valid_target s' = valid_target s)
  | GoToState _ => actual_state m' = actual_state m /\ states m' = states m
  | Run _ => target_state m' = target_state m /\ states m' = states m
  end.
Proof. apply step_frame. Qed.

Lemma call_frame_witness :
  step scenario_machine (GoToState 1) (set_target_state 1 scenario_machine) /\
  actual_state (set_target_state 1 scenario_machine) = actual_state scenario_machine /\
  states (set_target_state 1 scenario_machine) = states scenario_machine.
Proof.
  assert (step scenario_machine (GoToState 1)
            (set_target_state 1 scenario_machine)) as H
    by (by apply (step_go_to_state _ 1 true)).
  split; [exact H|].
  exact (proj2 (proj2 (call_frame _ _ _ H))).
Defined.

(** ** Edges *)

Section Edges.

Lemma step_state_grows m c m' i s :
  step m c m' -> state_at m i = Ok s ->
  exists s', state_at m' i = Ok s' /\
    forall t, allowed_target s t = true -> allowed_target s' t = true.
Proof.
  intros Hstep Hs.
  destruct Hstep as [j r e b m' H|a b r m' H|t r m' H|arg calls r m' H].
  - apply add_state_Ok in H as [(_ & [= ->])|(_ & _ & sj & Hj & _ & [= ->])];
      [by exists s|].
    destruct (N.eq_dec j i) as [->|Hne].
    + eexists. split; [by eapply state_at_store_eq|].
      assert (s = sj) as -> by congruence. done.
    + exists s. by rewrite state_at_store_ne.
  - apply add_transition_Ok in H
      as [(_ & [= ->] & _)|(_ & _ & _ & _ & sa & Ha & [= ->])]; [by exists s|].
    destruct (N.eq_dec a i) as [->|Hne].
    + eexists. split; [by eapply state_at_store_eq|].
      assert (s = sa) as -> by congruence.
      intros t Ht. unfold allowed_target in *. simpl.
      by rewrite lor_bit_testbit, Ht, orb_true_r.
    + exists s. by rewrite state_at_store_ne.
  - apply go_to_state_Ok in H as [[= ->] _]. exists s. by destruct r.
  - apply run_Ok in H as (cur & _ & [(_ & [= ->])|(_ & [= ->] & _)]); by exists s.
Qed.

Lemma step_edge m c m' a b : step m c m' -> edge m a b -> edge m' a b.
Proof.
  intros Hstep (s & Hs & Hb).
  destruct (step_state_grows m c m' a s Hstep Hs) as (s' & Hs' & Hgrow).
  exists s'. auto.
Qed.

End Edges.

(** X2. The sets of allowed targets only grow: whatever the driver calls,
    a target allowed from a state stays allowed from it. *)
Theorem allowed_targets_grow (m m' : fsm_t) (cs : list call)
    (i t : N) (s : fsm_state_t) :
  steps m cs m' ->
  state_at m i = Ok s -> allowed_target s t = true ->
  exists s', state_at m' i = Ok s' /\ allowed_target s' t = true.
Proof.
  intros Hsteps. revert s.
  induction Hsteps as [|m c cs m1 m2 H1 _ IH]; intros s Hs Ht; [by exists s|].
  destruct (step_state_grows m c m1 i s H1 Hs) as (s1 & Hs1 & Hgrow).
  by apply (IH s1); [|apply Hgrow].
Qed.

Lemma allowed_targets_grow_witness :
  steps scenario_machine [AddTransition 0 2; Run 7] fork_machine /\
  state_at scenario_machine 0 = Ok (mk_state 0 2 (mk_private true 100 200)) /\
  allowed_target (mk_state 0 2 (mk_private true 100 200)) 1 = true /\
  exists s', state_at fork_machine 0 = Ok s' /\ allowed_target s' 1 = true.
Proof.
  assert (steps scenario_machine [AddTransition 0 2; Run 7] fork_machine) as H.
  { eapply steps_cons; [by apply (step_add_transition _ 0 2 true)|].
    eapply steps_cons; [|apply steps_nil].
    by apply (step_run _ 7 [CallRun 100 7] 0). }
  split_and!; [exact H|reflexivity..|].
  exact (allowed_targets_grow _ _ _ 0 1 _ H eq_refl eq_refl).
Defined.

(** ** Machines in range *)

(** X3. A machine created with an initial state below [state_nr] keeps,
    through every sequence of calls that return, its number of states, an
    array of that many states whose identities are their indexes, and a
    current state and a target below [state_nr]; [get_state] then returns
    the offset of the current state. *)
Theorem calls_keep_range (malloc_private : N -> state_private_t)
    (nr initial : N) (arg : pointer) (cs : list call) (m : fsm_t) :
  initial < nr ->
  steps (state_machine_init malloc_private nr initial arg) cs m ->
  state_nr m = nr /\
  length (states m) = N.to_nat nr /\
  actual_state m < nr /\ target_state m < nr /\
  (forall i, i < nr -> exists s, state_at m i = Ok s /\ id s = i) /\
  state_machine_get_state (Some m) = Ok (actual_state m).
Proof.
  intros Hinit Hsteps.
  pose proof (steps_state_nr _ _ _ Hsteps) as Hnr. simpl in Hnr.
  destruct (steps_inv _ _ _ (init_inv malloc_private nr initial arg Hinit) Hsteps)
    as [Hl [Ha Ht]].
  rewrite Hnr in Ha, Ht. split_and!; [done| |done..| |].
  - destruct Hl as [-> _]. by rewrite Hnr.
  - intros i Hi. rewrite <- Hnr in Hi.
    destruct (layout_state_at m i Hl Hi) as (s & ? & ? & _). by exists s.
  - rewrite <- Hnr in Ha.
    destruct (layout_state_at m _ Hl Ha) as (s & Hs & <- & _).
    by apply get_state_eval.
Qed.

Lemma calls_keep_range_witness :
  0 < 3 /\
  steps (state_machine_init no_callbacks 3 0 NULL)
    [AddTransition 0 1; GoToState 1; Run 7]
    (set_actual_state 1 (set_target_state 1
       (store_state 0 (mk_state 0 2 (no_callbacks 0))
          (state_machine_init no_callbacks 3 0 NULL)))) /\
  state_machine_get_state
    (Some (set_actual_state 1 (set_target_state 1
       (store_state 0 (mk_state 0 2 (no_callbacks 0))
          (state_machine_init no_callbacks 3 0 NULL))))) = Ok 1.
Proof.
  assert (0 < 3) as H0 by reflexivity.
  assert (steps (state_machine_init no_callbacks 3 0 NULL)
    [AddTransition 0 1; GoToState 1; Run 7]
    (set_actual_state 1 (set_target_state 1
       (store_state 0 (mk_state 0 2 (no_callbacks 0))
          (state_machine_init no_callbacks 3 0 NULL))))) as H.
  { eapply steps_cons; [by apply (step_add_transition _ 0 1 true)|].
    eapply steps_cons; [by apply (step_go_to_state _ 1 true)|].
    eapply steps_cons; [|apply steps_nil].
    by apply (step_run _ 7 [] 1). }
  split_and!; [exact H0|exact H|].
  exact (proj2 (proj2 (proj2 (proj2 (proj2
    (calls_keep_range no_callbacks 3 0 NULL _ _ H0 H)))))).
Defined.

Section Paths.

Lemma step_path m c m' i0 :
  fsm_inv m -> step m c m' ->
  rtc (edge m) i0 (actual_state m) /\ pending_legal m ->
  rtc (edge m') i0 (actual_state m') /\ pending_legal m'.
Proof.
  intros [Hl [Ha Ht]] Hstep [Hpath Hpend].
  assert (rtc (edge m') i0 (actual_state m)) as Hpath'.
  { eapply rtc_subrel; [|exact Hpath]. intros x y. by apply (step_edge m c m'). }
  assert (target_state m = actual_state m \/
          edge m' (actual_state m) (target_state m)) as Hpend'.
  { destruct Hpend as [?|He]; [by left|right]. by apply (step_edge m c m'). }
  clear Hpath Hpend.
  pose proof (step_frame m m' c Hstep) as (_ & _ & Hframe).
  destruct Hstep as [i r e b m' H|a b r m' H|t r m' H|arg calls r m' H].
  - destruct Hframe as (Hact & Htgt & _). unfold pending_legal.
    by rewrite Hact, Htgt.
  - destruct Hframe as (Hact & Htgt & _). unfold pending_legal.
    by rewrite Hact, Htgt.
  - destruct Hframe as (Hact & _). unfold pending_legal. rewrite Hact.
    split; [done|].
    apply go_to_state_Ok in H as [[= ->] Hr]. destruct r; [|done].
    destruct (Hr eq_refl) as (_ & _ & cur & Hcur & Hbit).
    right. by exists cur.
  - apply run_Ok in H as (cur & Hcur & [(Heq & [= ->])|(Hne & [= ->] & _)]);
      destruct (state_at_layout m _ cur Hl Hcur) as (_ & Hid & _).
    + split; [done|]. left. congruence.
    + simpl. split; [|by left].
      destruct Hpend' as [Heq|He]; [congruence|].
      by eapply rtc_r.
Qed.

Lemma steps_path m cs m' i0 :
  fsm_inv m -> steps m cs m' ->
  rtc (edge m) i0 (actual_state m) /\ pending_legal m ->
  rtc (edge m') i0 (actual_state m') /\ pending_legal m'.
Proof.
  intros Hinv Hsteps. induction Hsteps as [|m c cs m1 m2 H1 _ IH]; [done|].
  intros H. apply IH; [by eapply step_inv|by eapply step_path].
Qed.

End Paths.

(** X4. As long as the calls return, the machine moves along registered
    edges only: for a machine created with an initial state below
    [state_nr], after every sequence of calls that return the current state
    is reached from the initial state by a path of edges registered by
    then, and the pending target, when it differs from the current state,
    is the end of an edge out of it.  A call that does not return (a
    request for an identity of 32 or more below [state_nr]) is no step of
    such a sequence. *)
Theorem moves_along_edges (malloc_private : N -> state_private_t)
    (nr initial : N) (arg : pointer) (cs : list call) (m : fsm_t) :
  initial < nr ->
  steps (state_machine_init malloc_private nr initial arg) cs m ->
  rtc (edge m) initial (actual_state m) /\ pending_legal m.
Proof.
  intros Hinit Hsteps.
  eapply steps_path; [by apply init_inv|exact Hsteps|].
  split; [apply rtc_refl|by left].
Qed.

Lemma moves_along_edges_witness :
  0 < 3 /\
  steps (state_machine_init no_callbacks 3 0 NULL)
    [AddTransition 0 1; GoToState 1; Run 7]
    (set_actual_state 1 (set_target_state 1
       (store_state 0 (mk_state 0 2 (no_callbacks 0))
          (state_machine_init no_callbacks 3 0 NULL)))) /\
  rtc (edge (set_actual_state 1 (set_target_state 1
       (store_state 0 (mk_state 0 2 (no_callbacks 0))
          (state_machine_init no_callbacks 3 0 NULL))))) 0 1.
Proof.
  assert (0 < 3) as H0 by reflexivity.
  assert (steps (state_machine_init no_callbacks 3 0 NULL)
    [AddTransition 0 1; GoToState 1; Run 7]
    (set_actual_state 1 (set_target_state 1
       (store_state 0 (mk_state 0 2 (no_callbacks 0))
          (state_machine_init no_callbacks 3 0 NULL))))) as H.
  { eapply steps_cons; [by apply (step_add_transition _ 0 1 true)|].
    eapply steps_cons; [by apply (step_go_to_state _ 1 true)|].
    eapply steps_cons; [|apply steps_nil].
    by apply (step_run _ 7 [] 1). }
  split_and!; [exact H0|exact H|].
  exact (proj1 (moves_along_edges no_callbacks 3 0 NULL _ _ H0 H)).
Defined.

(** ** Ticks *)

(** X5. On a machine that satisfies the invariant a tick always returns
    the target, makes at most one call of a callback, and leaves a machine
    with no pending transition: current state and target are the former
    target.  When [state_nr] fits a [uint32_t] the value returned is never
    the value [(uint32_t)(-1)] returned for [NULL]. *)
Theorem run_settles (m : fsm_t) (arg : pointer) :
  fsm_inv m ->
  exists calls m',
    state_machine_run (Some m) arg = Ok (calls, target_state m, Some m') /\
    (length calls <= 1)%nat /\
    actual_state m' = target_state m /\
    target_state m' = target_state m /\
    states m' = states m /\
    fsm_inv m' /\
    (state_nr m < 2 ^ 32 -> target_state m <> to_uint32 (-1)).
Proof.
  intros Hinv. pose proof Hinv as [Hl [Ha Ht]].
  destruct (layout_state_at m _ Hl Ha) as (cur & Hcur & Hidc & _).
  destruct (layout_state_at m _ Hl Ht) as (new & Hnew & Hidn & _).
  assert (state_nr m < 2 ^ 32 -> target_state m <> to_uint32 (-1)) as Hsent.
  { intros Hnr. change (to_uint32 (-1)) with 4294967295.
    change (2 ^ 32) with 4294967296 in Hnr. lia. }
  destruct (N.eq_dec (id cur) (target_state m)) as [Heq|Hne].
  - exists (call_run (run (private_data cur)) arg), m.
    rewrite (run_stay m arg cur Hcur Heq), Heq.
    split_and!; [done| |congruence|done..].
    unfold call_run. destruct (_ =? _); simpl; lia.
  - exists (call_enter (enter (private_data new)) (id cur) arg),
      (set_actual_state (target_state m) m).
    rewrite (run_enter m arg cur new Hcur Hne Hnew), Hidn.
    split_and!; [done| |done..| |done].
    + unfold call_enter. destruct (_ =? _); simpl; lia.
    + split; [done|]. by split.
Qed.

Lemma run_settles_witness :
  fsm_inv (set_target_state 1 scenario_machine) /\
  exists calls m',
    state_machine_run (Some (set_target_state 1 scenario_machine)) 7
      = Ok (calls, target_state (set_target_state 1 scenario_machine), Some m') /\
    (length calls <= 1)%nat /\
    actual_state m' = target_state (set_target_state 1 scenario_machine) /\
    target_state m' = target_state (set_target_state 1 scenario_machine) /\
    states m' = states (set_target_state 1 scenario_machine) /\
    fsm_inv m' /\
    (state_nr (set_target_state 1 scenario_machine) < 2 ^ 32 ->
     target_state (set_target_state 1 scenario_machine) <> to_uint32 (-1)).
Proof.
  assert (fsm_inv (set_target_state 1 scenario_machine)) as H
    by (apply (bool_decide_unpack _); vm_compute; exact I).
  split; [exact H|]. exact (run_settles _ 7 H).
Defined.

(** X6. Whatever the machine, when a tick returns, the value it returns is
    the one [get_state] returns afterwards. *)
Theorem run_returns_get_state (m m' : fsm_t) (arg : pointer)
    (calls : list event) (r : N) :
  state_machine_run (Some m) arg = Ok (calls, r, Some m') ->
  state_machine_get_state (Some m') = Ok r.
Proof.
  intros H.
  destruct (run_Ok _ _ _ _ _ H)
    as (cur & Hcur & [(Heq & [= ->])|(Hne & [= ->] & new & Hnew)]).
  - rewrite (run_stay m arg cur Hcur Heq) in H. injection H as _ <-.
    by apply get_state_eval.
  - rewrite (run_enter m arg cur new Hcur Hne Hnew) in H. injection H as _ <-.
    by apply get_state_eval.
Qed.

Lemma run_returns_get_state_witness :
  state_machine_run (Some (set_target_state 1 scenario_machine)) 7
    = Ok ([CallEnter 201 0 7], 1,
          Some (set_actual_state 1 (set_target_state 1 scenario_machine))) /\
  state_machine_get_state
    (Some (set_actual_state 1 (set_target_state 1 scenario_machine))) = Ok 1.
Proof.
  assert (state_machine_run (Some (set_target_state 1 scenario_machine)) 7
    = Ok ([CallEnter 201 0 7], 1,
          Some (set_actual_state 1 (set_target_state 1 scenario_machine)))) as H
    by reflexivity.
  split; [exact H|]. exact (run_returns_get_state _ _ _ _ _ H).
Defined.

(** ** Machines created out of range *)

Section Stray.

Lemma state_at_out m i :
  layout m -> state_nr m <= i -> state_at m i = Undefined OutOfBounds.
Proof.
  intros [Hlen _] Hi. unfold state_at.
  rewrite lookup_ge_None_2; [done|lia].
Qed.

Lemma steps_layout m cs m' : layout m -> steps m cs m' -> layout m'.
Proof.
  intros Hl Hsteps. induction Hsteps as [|m c cs m1 m2 H1 _ IH]; [done|].
  apply IH. by eapply step_layout.
Qed.

Lemma step_stray m c m' :
  layout m -> state_nr m <= actual_state m -> step m c m' ->
  actual_state m' = actual_state m /\ forall arg, c <> Run arg.
Proof.
  intros Hl Hout Hstep.
  pose proof (step_frame m m' c Hstep) as (_ & _ & Hframe).
  destruct Hstep as [i r e b m' H|a b r m' H|t r m' H|arg calls r m' H].
  - by destruct Hframe as (-> & _).
  - by destruct Hframe as (-> & _).
  - by destruct Hframe as (-> & _).
  - apply run_Ok in H as (cur & Hcur & _).
    by rewrite state_at_out in Hcur.
Qed.

End Stray.

(** X7. A machine created with an initial state not below [state_nr] never
    comes back into range: whatever the driver calls, no tick returns, the
    current state stays the one given at creation, and on every machine so
    reached [run], [get_state] and every request for an identity below
    [state_nr] read outside the array. *)
Theorem stray_machine_stuck (malloc_private : N -> state_private_t)
    (nr initial : N) (arg : pointer) (cs : list call) (m : fsm_t) :
  nr <= initial ->
  steps (state_machine_init malloc_private nr initial arg) cs m ->
  actual_state m = initial /\
  (forall a, Run a ∉ cs) /\
  (forall a, state_machine_run (Some m) a = Undefined OutOfBounds) /\
  state_machine_get_state (Some m) = Undefined OutOfBounds /\
  (forall t, t < nr ->
     state_machine_go_to_state (Some m) t = Undefined OutOfBounds).
Proof.
  intros Hout Hsteps.
  assert (forall m0, layout m0 -> state_nr m0 <= actual_state m0 ->
            steps m0 cs m ->
            actual_state m = actual_state m0 /\ forall a, Run a ∉ cs) as Hgen.
  { clear. intros m0 Hl Hout Hsteps.
    induction Hsteps as [|m c cs m1 m2 H1 _ IH].
    - split; [done|]. intros a. apply not_elem_of_nil.
    - destruct (step_stray m c m1 Hl Hout H1) as [Hact Hrun].
      destruct IH as [IH1 IH2].
      + by eapply step_layout.
      + rewrite Hact. by rewrite (step_state_nr _ _ _ H1).
      + split; [congruence|]. intros a [Heq|Hin]%elem_of_cons.
        * by eapply Hrun.
        * by eapply IH2. }
  destruct (Hgen _ (init_layout malloc_private nr initial arg) Hout Hsteps)
    as [Hact Hrun].
  simpl in Hact.
  pose proof (steps_layout _ _ _ (init_layout malloc_private nr initial arg) Hsteps)
    as Hl.
  pose proof (steps_state_nr _ _ _ Hsteps) as Hnr. simpl in Hnr.
  assert (state_at m (actual_state m) = Undefined OutOfBounds) as Hcur.
  { apply state_at_out; [done|]. by rewrite Hnr, Hact. }
  split_and!; [done..| | |].
  - intros a. unfold state_machine_run. unfold_bind. by rewrite Hcur.
  - unfold state_machine_get_state. unfold_bind. by rewrite Hcur.
  - intros t Ht. unfold state_machine_go_to_state. unfold_bind.
    destruct (N.leb_spec (state_nr m) t); [lia|]. by rewrite Hcur.
Qed.

Lemma stray_machine_stuck_witness :
  3 <= 5 /\
  steps stray_machine [AddState 0 100 200; AddTransition 0 1]
    (store_state 0 (mk_state 0 2 (mk_private true 100 200)) stray_machine) /\
  state_machine_go_to_state
    (Some (store_state 0 (mk_state 0 2 (mk_private true 100 200)) stray_machine))
    1 = Undefined OutOfBounds.
Proof.
  assert (3 <= 5) as H0 by (intros H; discriminate H).
  assert (steps stray_machine [AddState 0 100 200; AddTransition 0 1]
    (store_state 0 (mk_state 0 2 (mk_private true 100 200)) stray_machine)) as H.
  { eapply steps_cons; [by apply (step_add_state _ 0 100 200 true)|].
    eapply steps_cons; [|apply steps_nil].
    by apply (step_add_transition _ 0 1 true). }
  split_and!; [exact H0|exact H|].
  exact (proj2 (proj2 (proj2 (proj2
    (stray_machine_stuck no_callbacks 3 5 NULL _ _ H0 H)))) 1 eq_refl).
Defined.

(** ** States never registered *)

Section Unregistered.

Variable malloc_private : N -> state_private_t.

Lemma init_untouched nr initial arg :
  untouched malloc_private (state_machine_init malloc_private nr initial arg).
Proof.
  intros j s Hs _.
  destruct (state_at_layout _ j s (init_layout _ _ _ _) Hs) as (Hj & _).
  simpl in Hj. rewrite init_state_at in Hs by done. by injection Hs as <-.
Qed.

Lemma step_untouched m c m' : untouched malloc_private m -> step m c m' -> untouched malloc_private m'.
Proof.
  intros Hm Hstep j s' Hs' Hdis.
  destruct Hstep as [i r e b m' H|a b r m' H|t r m' H|arg calls r m' H].
  - apply add_state_Ok in H as [(_ & [= ->])|(_ & _ & si & Hi & _ & [= ->])];
      [by apply Hm|].
    destruct (N.eq_dec i j) as [->|Hne].
    + erewrite state_at_store_eq in Hs' by done. injection Hs' as <-. done.
    + rewrite state_at_store_ne in Hs' by done. by apply Hm.
  - apply add_transition_Ok in H
      as [(_ & [= ->] & _)|(_ & _ & _ & _ & sa & Ha & [= ->])]; [by apply Hm|].
    destruct (N.eq_dec a j) as [->|Hne].
    + erewrite state_at_store_eq in Hs' by done. injection Hs' as <-.
      simpl in *. by apply Hm.
    + rewrite state_at_store_ne in Hs' by done. by apply Hm.
  - apply go_to_state_Ok in H as [[= ->] _]. apply Hm; [|done]. by destruct r.
  - apply run_Ok in H as (cur & _ & [(_ & [= ->])|(_ & [= ->] & _)]); by apply Hm.
Qed.

Lemma steps_untouched m cs m' : untouched malloc_private m -> steps m cs m' -> untouched malloc_private m'.
Proof.
  intros Hm Hsteps. induction Hsteps as [|m c cs m1 m2 H1 _ IH]; [done|].
  apply IH. by eapply step_untouched.
Qed.

End Unregistered.

(** X8. [run] does not read the flag [enabled].  For a state that no
    [add_state] has registered, the callbacks are still what [malloc] left
    in its block, whatever calls were made since the creation; a tick that
    stays in such a state tests that [run] pointer against [NULL] and calls
    it, and a tick that enters such a state does the same with that [enter]
    pointer. *)
Theorem unregistered_callbacks (malloc_private : N -> state_private_t)
    (nr initial : N) (arg : pointer) (cs : list call) (m : fsm_t)
    (j : N) (s : fsm_state_t) :
  steps (state_machine_init malloc_private nr initial arg) cs m ->
  state_at m j = Ok s ->
  enabled (private_data s) = false ->
  private_data s =
    {| enabled := false; run := run (malloc_private j);
       enter := enter (malloc_private j) |} /\
  (actual_state m = j -> target_state m = j ->
   forall a, state_machine_run (Some m) a =
     Ok (call_run (run (malloc_private j)) a, j, Some m)) /\
  (target_state m = j ->
   forall cur, state_at m (actual_state m) = Ok cur -> id cur <> j ->
   forall a, state_machine_run (Some m) a =
     Ok (call_enter (enter (malloc_private j)) (id cur) a, j,
         Some (set_actual_state j m))).
Proof.
  intros Hsteps Hs Hdis.
  pose proof (steps_untouched malloc_private _ _ _
                (init_untouched malloc_private nr initial arg) Hsteps j s Hs Hdis)
    as Hp.
  pose proof (steps_layout _ _ _ (init_layout malloc_private nr initial arg) Hsteps)
    as Hl.
  destruct (state_at_layout m j s Hl Hs) as (_ & Hid & _).
  split_and!; [done| |].
  - intros Ha Ht a. rewrite (run_stay m a s); [by rewrite Hp, Hid|congruence..].
  - intros Ht cur Hcur Hne a.
    rewrite (run_enter m a cur s); [by rewrite Hp, Hid, Ht|congruence..].
Qed.

Lemma unregistered_callbacks_witness :
  let junk : N -> state_private_t := fun _ => mk_private true 4096 8192 in
  let m := state_machine_init junk 2 0 NULL in
  steps m [] m /\
  state_at m 0 = Ok (mk_state 0 0 (mk_private false 4096 8192)) /\
  enabled (private_data (mk_state 0 0 (mk_private false 4096 8192))) = false /\
  state_machine_run (Some m) 7 = Ok ([CallRun 4096 7], 0, Some m).
Proof.
  intros junk m.
  assert (steps m [] m) as H by constructor.
  assert (state_at m 0 = Ok (mk_state 0 0 (mk_private false 4096 8192)))
    as Hs by reflexivity.
  split_and!; [exact H|exact Hs|reflexivity|].
  exact (proj1 (proj2 (unregistered_callbacks junk 2 0 NULL [] m 0 _
                         H Hs eq_refl)) eq_refl eq_refl 7).
Defined.

(** ** Requests *)

(** X9. Requesting the same target twice is requesting it once: the two
    calls in sequence have the outcome of a single call, machine
    included. *)
Theorem go_to_state_idempotent (m : fsm_t) (t : N) :
  ('(_, fsm1) ← state_machine_go_to_state (Some m) t;
   state_machine_go_to_state fsm1 t)
  = state_machine_go_to_state (Some m) t.
Proof.
  destruct (state_machine_go_to_state (Some m) t) as [[r fsm1]|f] eqn:H; [|done].
  unfold_bind.
  destruct (go_to_state_Ok _ _ _ _ H) as [-> Hr]. destruct r; [|exact H].
  destruct (Hr eq_refl) as (Ht & Hw & cur & Hcur & Hbit).
  rewrite (go_to_state_eval _ t cur); [by rewrite Hbit|done..].
Qed.

(** ** Edges, one at a time *)

(** X10. On a machine whose array is laid out, with both identities below
    [state_nr] and the target below the 32 bits of the mask,
    [add_transition] adds the one edge it is given: afterwards the edges
    out of [state_id] are the former ones and the new one, and the edges out
    of every other state are the former ones. *)
Theorem add_transition_one_edge (m : fsm_t) (state_id target_id : N) :
  layout m ->
  state_id < state_nr m -> target_id < state_nr m -> target_id < int_width ->
  exists m',
    state_machine_add_transition (Some m) state_id target_id = Ok (true, Some m') /\
    (forall t, edge m' state_id t <-> t = target_id \/ edge m state_id t) /\
    (forall j t, j <> state_id -> edge m' j t <-> edge m j t).
Proof.
  intros Hl Ha Hb Hw.
  destruct (layout_state_at m state_id Hl Ha) as (s & Hs & _).
  set (s' := set_valid_target (N.lor (valid_target s) (2 ^ target_id)) s).
  exists (store_state state_id s' m).
  assert (state_at (store_state state_id s' m) state_id = Ok s') as Hs'
    by (by eapply state_at_store_eq).
  split_and!.
  - by apply add_transition_eval.
  - intros t. unfold edge. split.
    + intros (s1 & Hs1 & Hbit). assert (s1 = s') as -> by congruence.
      unfold allowed_target, s' in Hbit. simpl in Hbit.
      rewrite lor_bit_testbit in Hbit.
      apply orb_true_iff in Hbit as [Heq%N.eqb_eq|Hbit]; [by left|right].
      by exists s.
    + intros [->|(s1 & Hs1 & Hbit)]; exists s'; (split; [done|]);
        unfold allowed_target, s'; simpl; rewrite lor_bit_testbit.
      * by rewrite N.eqb_refl.
      * assert (s1 = s) as -> by congruence.
        unfold allowed_target in Hbit. by rewrite Hbit, orb_true_r.
  - intros j t Hne. unfold edge. by rewrite state_at_store_ne.
Qed.

Lemma add_transition_one_edge_witness :
  layout scenario_machine /\
  0 < state_nr scenario_machine /\ 2 < state_nr scenario_machine /\
  2 < int_width /\
  exists m',
    state_machine_add_transition (Some scenario_machine) 0 2 = Ok (true, Some m') /\
    (forall t, edge m' 0 t <-> t = 2 \/ edge scenario_machine 0 t) /\
    (forall j t, j <> 0 -> edge m' j t <-> edge scenario_machine j t).
Proof.
  assert (layout scenario_machine) as H
    by (apply (bool_decide_unpack _); vm_compute; exact I).
  split_and!; [exact H|reflexivity..|].
  exact (add_transition_one_edge scenario_machine 0 2 H eq_refl eq_refl eq_refl).
Defined.

(** ** Order of the registration calls *)

Section Setup.

Lemma add_transition_layout m a b :
  layout m ->
  state_machine_add_transition (Some m) a b =
    if (state_nr m <=? a) || (state_nr m <=? b) then Ok (false, Some m)
    else if b <? int_width then Ok (true, Some (add_edge m a b))
    else Undefined ShiftTooWide.
Proof.
  intros Hl.
  destruct (N.leb_spec (state_nr m) a) as [Ha|Ha]; cbn [orb].
  { apply add_transition_invalid. by left. }
  destruct (N.leb_spec (state_nr m) b) as [Hb|Hb]; cbn [orb].
  { apply add_transition_invalid. by right. }
  destruct (layout_state_at m a Hl Ha) as (s & Hs & _).
  destruct (N.ltb_spec b int_width) as [Hw|Hw].
  - rewrite (add_transition_eval m a b s) by done.
    unfold add_edge. apply state_at_Ok in Hs. by rewrite Hs.
  - by apply (add_transition_wide m a b s).
Qed.

Lemma add_state_layout m i r e :
  layout m ->
  state_machine_add_state (Some m) i r e =
    if (state_nr m <=? i) || is_enabled m i then Ok (false, Some m)
    else Ok (true, Some (register m i r e)).
Proof.
  intros Hl.
  destruct (N.leb_spec (state_nr m) i) as [Hi|Hi]; cbn [orb].
  { by apply add_state_invalid. }
  destruct (layout_state_at m i Hl Hi) as (s & Hs & _).
  rewrite (add_state_eval m i r e s) by done.
  unfold is_enabled, register. apply state_at_Ok in Hs. rewrite Hs.
  by destruct (enabled (private_data s)).
Qed.

Lemma add_edge_state_nr m a b : state_nr (add_edge m a b) = state_nr m.
Proof. unfold add_edge. by destruct (states m !! N.to_nat a). Qed.

Lemma register_state_nr m i r e : state_nr (register m i r e) = state_nr m.
Proof. unfold register. by destruct (states m !! N.to_nat i). Qed.

Lemma add_edge_layout m a b : layout m -> b < int_width -> layout (add_edge m a b).
Proof.
  intros Hl Hw. unfold add_edge.
  destruct (states m !! N.to_nat a) as [s|] eqn:Hs; [|done].
  apply state_at_Ok in Hs.
  apply (layout_store m a s); [done..|]. simpl.
  destruct (state_at_layout m a s Hl Hs) as (_ & _ & ?).
  apply lor_lt_pow2; [done|]. apply N.pow_lt_mono_r; [lia|exact Hw].
Qed.

Lemma register_layout m i r e : layout m -> layout (register m i r e).
Proof.
  intros Hl. unfold register.
  destruct (states m !! N.to_nat i) as [s|] eqn:Hs; [|done].
  apply state_at_Ok in Hs.
  apply (layout_store m i s); [done..|]. simpl.
  by destruct (state_at_layout m i s Hl Hs) as (_ & _ & ?).
Qed.

Lemma is_enabled_add_edge m a b i : is_enabled (add_edge m a b) i = is_enabled m i.
Proof.
  unfold is_enabled, add_edge.
  destruct (states m !! N.to_nat a) as [s|] eqn:Hs; [|done]. simpl.
  destruct (decide (N.to_nat a = N.to_nat i)) as [Heq|Hne].
  - rewrite <- Heq, Hs.
    rewrite list_lookup_insert_eq by (by eapply lookup_lt_Some). done.
  - by rewrite list_lookup_insert_ne.
Qed.

Lemma is_enabled_register_ne m i r e j :
  i <> j -> is_enabled (register m i r e) j = is_enabled m j.
Proof.
  intros Hne. unfold is_enabled, register.
  destruct (states m !! N.to_nat i) as [s|] eqn:Hs; [|done]. simpl.
  rewrite list_lookup_insert_ne; [done|lia].
Qed.

Lemma add_edge_comm m a b c d :
  add_edge (add_edge m a b) c d = add_edge (add_edge m c d) a b.
Proof.
  unfold add_edge.
  destruct (decide (N.to_nat a = N.to_nat c)) as [Heq|Hne].
  - assert (a = c) as -> by lia.
    destruct (states m !! N.to_nat c) as [s|] eqn:Hs; [|by rewrite Hs].
    simpl. rewrite !list_lookup_insert_eq by (by eapply lookup_lt_Some).
    unfold store_state, set_states, set_valid_target. simpl.
    rewrite !list_insert_insert_eq. do 3 f_equal.
    rewrite <- !N.lor_assoc. f_equal. apply N.lor_comm.
  - destruct (states m !! N.to_nat a) as [sa|] eqn:Hsa;
      destruct (states m !! N.to_nat c) as [sc|] eqn:Hsc; simpl;
      rewrite ?list_lookup_insert_ne by done; rewrite ?Hsa, ?Hsc; try done.
    unfold store_state, set_states. simpl. f_equal.
    by apply list_insert_insert_ne.
Qed.

Lemma register_add_edge m i r e a b :
  register (add_edge m a b) i r e = add_edge (register m i r e) a b.
Proof.
  unfold add_edge, register.
  destruct (decide (N.to_nat a = N.to_nat i)) as [Heq|Hne].
  - assert (a = i) as -> by lia.
    destruct (states m !! N.to_nat i) as [s|] eqn:Hs; [|by rewrite Hs].
    simpl. rewrite !list_lookup_insert_eq by (by eapply lookup_lt_Some).
    unfold store_state, set_states, set_valid_target, set_private_data. simpl.
    by rewrite !list_insert_insert_eq.
  - destruct (states m !! N.to_nat a) as [sa|] eqn:Hsa;
      destruct (states m !! N.to_nat i) as [si|] eqn:Hsi; simpl;
      rewrite ?list_lookup_insert_ne by done; rewrite ?Hsa, ?Hsi; try done.
    unfold store_state, set_states. simpl. f_equal.
    by apply list_insert_insert_ne.
Qed.

Lemma register_comm m i r e j r' e' :
  i <> j ->
  register (register m i r e) j r' e' = register (register m j r' e') i r e.
Proof.
  intros Hij. unfold register.
  assert (N.to_nat i <> N.to_nat j) as Hne by lia.
  destruct (states m !! N.to_nat i) as [si|] eqn:Hsi;
    destruct (states m !! N.to_nat j) as [sj|] eqn:Hsj; simpl;
    rewrite ?list_lookup_insert_ne by done; rewrite ?Hsi, ?Hsj; try done.
  unfold store_state, set_states. simpl. f_equal.
  by apply list_insert_insert_ne.
Qed.

End Setup.

Ltac norm_bind := unfold mbind, outcome_bind; cbv beta iota.

Ltac eval_setup_call :=
  match goal with
  | |- context [state_machine_add_transition (Some ?x) ?p ?q] =>
      rewrite (add_transition_layout x p q)
        by (repeat first [assumption | apply add_edge_layout | apply register_layout]);
      rewrite ?add_edge_state_nr, ?register_state_nr
  | |- context [state_machine_add_state (Some ?x) ?p ?r ?e] =>
      rewrite (add_state_layout x p r e)
        by (repeat first [assumption | apply add_edge_layout | apply register_layout]);
      rewrite ?add_edge_state_nr, ?register_state_nr
  end.


(** X11. On a machine whose array is laid out, two [add_transition] calls
    made in either order have the same outcome: the same two return values
    and the same machine, or undefined behaviour in both orders. *)
Theorem add_transitions_commute (m : fsm_t) (a b c d : N) :
  layout m ->
  ('(r1, fsm1) ← state_machine_add_transition (Some m) a b;
   '(r2, fsm2) ← state_machine_add_transition fsm1 c d;
   Ok (r1, r2, fsm2))
  =
  ('(r2, fsm1) ← state_machine_add_transition (Some m) c d;
   '(r1, fsm2) ← state_machine_add_transition fsm1 a b;
   Ok (r1, r2, fsm2)).
Proof.
  intros Hl.
  destruct ((state_nr m <=? a) || (state_nr m <=? b)) eqn:Hab;
    destruct ((state_nr m <=? c) || (state_nr m <=? d)) eqn:Hcd;
    destruct (N.ltb_spec b int_width) as [Hb|Hb];
    destruct (N.ltb_spec d int_width) as [Hd|Hd];
    pose proof Hb as Eb; pose proof Hd as Ed;
    first [apply N.ltb_lt in Eb|apply N.ltb_ge in Eb];
    first [apply N.ltb_lt in Ed|apply N.ltb_ge in Ed];
    repeat (norm_bind; rewrite ?Hab, ?Hcd, ?Eb, ?Ed; try eval_setup_call);
    norm_bind; try reflexivity.
  by rewrite add_edge_comm.
Qed.

Lemma add_transitions_commute_witness :
  layout scenario_machine /\
  ('(r1, fsm1) ← state_machine_add_transition (Some scenario_machine) 0 2;
   '(r2, fsm2) ← state_machine_add_transition fsm1 2 0;
   Ok (r1, r2, fsm2))
  =
  ('(r2, fsm1) ← state_machine_add_transition (Some scenario_machine) 2 0;
   '(r1, fsm2) ← state_machine_add_transition fsm1 0 2;
   Ok (r1, r2, fsm2)).
Proof.
  assert (layout scenario_machine) as H
    by (apply (bool_decide_unpack _); vm_compute; exact I).
  split; [exact H|]. exact (add_transitions_commute scenario_machine 0 2 2 0 H).
Defined.

(** X12. On a machine whose array is laid out, an [add_state] and an
    [add_transition] made in either order have the same outcome: the same
    two return values and the same machine, or undefined behaviour in both
    orders.  Edges may be registered before or after the states they
    join. *)
Theorem add_state_add_transition_commute (m : fsm_t) (i : N)
    (r : fsm_state_run_t) (e : fsm_state_enter_t) (a b : N) :
  layout m ->
  ('(r1, fsm1) ← state_machine_add_state (Some m) i r e;
   '(r2, fsm2) ← state_machine_add_transition fsm1 a b;
   Ok (r1, r2, fsm2))
  =
  ('(r2, fsm1) ← state_machine_add_transition (Some m) a b;
   '(r1, fsm2) ← state_machine_add_state fsm1 i r e;
   Ok (r1, r2, fsm2)).
Proof.
  intros Hl.
  destruct ((state_nr m <=? i) || is_enabled m i) eqn:Hi;
    destruct ((state_nr m <=? a) || (state_nr m <=? b)) eqn:Hab;
    destruct (N.ltb_spec b int_width) as [Hb|Hb];
    pose proof Hb as Eb;
    first [apply N.ltb_lt in Eb|apply N.ltb_ge in Eb];
    repeat (norm_bind; rewrite ?is_enabled_add_edge, ?Hi, ?Hab, ?Eb;
            try eval_setup_call);
    norm_bind; try reflexivity.
  by rewrite register_add_edge.
Qed.

Lemma add_state_add_transition_commute_witness :
  let m := state_machine_init no_callbacks 3 0 NULL in
  layout m /\
  ('(r1, fsm1) ← state_machine_add_state (Some m) 1 101 201;
   '(r2, fsm2) ← state_machine_add_transition fsm1 1 2;
   Ok (r1, r2, fsm2))
  =
  ('(r2, fsm1) ← state_machine_add_transition (Some m) 1 2;
   '(r1, fsm2) ← state_machine_add_state fsm1 1 101 201;
   Ok (r1, r2, fsm2)).
Proof.
  intros m.
  assert (layout m) as H by apply init_layout.
  split; [exact H|].
  exact (add_state_add_transition_commute m 1 101 201 1 2 H).
Defined.

(** X13. On a machine whose array is laid out, two [add_state] calls for
    different identities made in either order return the same two values
    and leave the same machine. *)
Theorem add_states_commute (m : fsm_t) (i j : N)
    (r r' : fsm_state_run_t) (e e' : fsm_state_enter_t) :
  layout m ->
  i <> j ->
  ('(r1, fsm1) ← state_machine_add_state (Some m) i r e;
   '(r2, fsm2) ← state_machine_add_state fsm1 j r' e';
   Ok (r1, r2, fsm2))
  =
  ('(r2, fsm1) ← state_machine_add_state (Some m) j r' e';
   '(r1, fsm2) ← state_machine_add_state fsm1 i r e;
   Ok (r1, r2, fsm2)).
Proof.
  intros Hl Hij.
  destruct ((state_nr m <=? i) || is_enabled m i) eqn:Hi;
    destruct ((state_nr m <=? j) || is_enabled m j) eqn:Hj;
    repeat (norm_bind;
            rewrite ?(is_enabled_register_ne m i r e j) by done;
            rewrite ?(is_enabled_register_ne m j r' e' i) by done;
            rewrite ?Hi, ?Hj;
            try eval_setup_call);
    norm_bind; try reflexivity.
  by rewrite register_comm.
Qed.

Lemma add_states_commute_witness :
  let m := state_machine_init no_callbacks 3 0 NULL in
  layout m /\ 0 <> 1 /\
  ('(r1, fsm1) ← state_machine_add_state (Some m) 0 100 200;
   '(r2, fsm2) ← state_machine_add_state fsm1 1 101 201;
   Ok (r1, r2, fsm2))
  =
  ('(r2, fsm1) ← state_machine_add_state (Some m) 1 101 201;
   '(r1, fsm2) ← state_machine_add_state fsm1 0 100 200;
   Ok (r1, r2, fsm2)).
Proof.
  intros m.
  assert (layout m) as H by apply init_layout.
  assert (0 <> 1) as Hne by (intros Heq; discriminate Heq).
  split_and!; [exact H|exact Hne|].
  exact (add_states_commute m 0 1 100 101 200 201 H Hne).
Defined.

(** ** Edges and identities *)

Section Masks.

Lemma init_masks_valid mp nr initial arg :
  masks_valid (state_machine_init mp nr initial arg).
Proof.
  unfold masks_valid. simpl. apply Forall_fmap, Forall_forall. intros j _.
  simpl. apply N.neq_0_lt_0, N.pow_nonzero. discriminate.
Qed.

Lemma step_masks_valid m c m' : masks_valid m -> step m c m' -> masks_valid m'.
Proof.
  unfold masks_valid. intros Hm.
  destruct 1 as [i r e b m' H|a b r m' H|t r m' H|arg calls r m' H].
  - apply add_state_Ok in H as [(_ & [= ->])|(_ & _ & s & Hs & _ & [= ->])];
      [done|].
    simpl. apply Forall_insert; [done|]. simpl.
    apply state_at_Ok in Hs. by eapply (Forall_lookup_1 _ _ _ _ Hm).
  - apply add_transition_Ok in H
      as [(_ & [= ->] & _)|(_ & _ & Hb & _ & s & Hs & [= ->])]; [done|].
    simpl. apply Forall_insert; [done|]. simpl.
    apply state_at_Ok in Hs. apply lor_lt_pow2.
    + by eapply (Forall_lookup_1 _ _ _ _ Hm).
    + apply N.pow_lt_mono_r; [lia|exact Hb].
  - apply go_to_state_Ok in H as [[= ->] _]. by destruct r.
  - apply run_Ok in H as (cur & _ & [(_ & [= ->])|(_ & [= ->] & _)]); done.
Qed.

Lemma steps_masks_valid m cs m' : masks_valid m -> steps m cs m' -> masks_valid m'.
Proof.
  intros Hm Hsteps. induction Hsteps as [|m c cs m1 m2 H1 _ IH]; [done|].
  apply IH. by eapply step_masks_valid.
Qed.

Lemma edge_valid m a b :
  layout m -> masks_valid m -> edge m a b ->
  a < state_nr m /\ b < state_nr m /\ b < int_width.
Proof.
  intros Hl Hm (s & Hs & Hbit).
  destruct (state_at_layout m a s Hl Hs) as (Ha & _ & Hmask).
  apply state_at_Ok in Hs.
  pose proof (Forall_lookup_1 _ _ _ _ Hm Hs) as Hnr. simpl in Hnr.
  unfold allowed_target in Hbit. split_and!; [done| |].
  - destruct (N.ltb_spec b (state_nr m)) as [|Hge]; [done|].
    by rewrite (testbit_above _ _ b Hnr Hge) in Hbit.
  - destruct (N.ltb_spec b int_width) as [|Hge]; [done|].
    by rewrite (testbit_above _ 32 b Hmask Hge) in Hbit.
Qed.

Lemma steps_app m cs1 m1 cs2 m2 :
  steps m cs1 m1 -> steps m1 cs2 m2 -> steps m (cs1 ++ cs2) m2.
Proof.
  intros H1 H2. induction H1 as [|m c cs m' m1 Hc _ IH]; [done|].
  simpl. eapply steps_cons; [exact Hc|by apply IH].
Qed.

End Masks.

(** X14. In a machine created by [state_machine_init], after every sequence
    of calls, every registered edge joins two identities below [state_nr],
    and its target is below the 32 bits of the mask. *)
Theorem edges_join_states (malloc_private : N -> state_private_t)
    (nr initial : N) (arg : pointer) (cs : list call) (m : fsm_t) (a b : N) :
  steps (state_machine_init malloc_private nr initial arg) cs m ->
  edge m a b ->
  a < nr /\ b < nr /\ b < int_width.
Proof.
  intros Hsteps He.
  pose proof (steps_state_nr _ _ _ Hsteps) as Hnr. simpl in Hnr.
  rewrite <- Hnr. apply edge_valid; [| |done].
  - eapply steps_layout; [apply init_layout|done].
  - eapply steps_masks_valid; [apply init_masks_valid|done].
Qed.

Lemma edges_join_states_witness :
  let m := state_machine_init no_callbacks 3 0 NULL in
  let m' := store_state 0 (mk_state 0 2 (no_callbacks 0)) m in
  steps m [AddTransition 0 1; AddTransition 0 3] m' /\
  edge m' 0 1 /\
  (0 < 3 /\ 1 < 3 /\ 1 < int_width).
Proof.
  intros m m'.
  assert (steps m [AddTransition 0 1; AddTransition 0 3] m') as H.
  { eapply steps_cons; [by apply (step_add_transition _ 0 1 true)|].
    eapply steps_cons; [|apply steps_nil].
    by apply (step_add_transition _ 0 3 false). }
  assert (edge m' 0 1) as He by (by eexists).
  split; [exact H|]. split; [exact He|].
  exact (edges_join_states no_callbacks 3 0 NULL _ m' 0 1 H He).
Defined.

(** X15. Every path of registered edges can be walked: on a machine that
    satisfies the invariant and whose masks name identities below
    [state_nr] only, for every state reached from the current one by a path
    of edges there is a sequence of calls, all of which return, that makes
    it the current state with no transition pending at the end of a
    non-empty path, and leaves the states as they were. *)
Theorem edge_path_walk (m : fsm_t) (x : N) :
  fsm_inv m ->
  masks_valid m ->
  rtc (edge m) (actual_state m) x ->
  exists cs m',
    steps m cs m' /\
    actual_state m' = x /\
    states m' = states m /\
    (x <> actual_state m -> target_state m' = x).
Proof.
  intros Hinv Hm Hpath.
  enough (exists cs m', steps m cs m' /\ actual_state m' = x /\
            states m' = states m /\ (cs <> [] -> target_state m' = x))
    as (cs & m' & Hsteps & Hact & Hst & Htgt).
  { exists cs, m'. split_and!; [done..|]. intros Hne. apply Htgt.
    intros ->. inversion Hsteps; subst. done. }
  revert x Hpath. apply rtc_ind_r.
  { exists [], m. split_and!; [constructor|done..]. }
  intros y z _ Hedge (cs & m1 & Hsteps & Hact & Hst & _).
  pose proof (steps_inv _ _ _ Hinv Hsteps) as [Hl1 [Ha1 Ht1]].
  pose proof (steps_state_nr _ _ _ Hsteps) as Hnr.
  assert (edge m1 y z) as Hedge1.
  { destruct Hedge as (s & Hs & Hbit). exists s. split; [|done].
    unfold state_at in *. by rewrite Hst. }
  destruct (edge_valid m y z (proj1 Hinv) Hm Hedge) as (_ & Hz & Hw).
  destruct Hedge1 as (cur & Hcur & Hbit).
  set (m2 := set_target_state z m1).
  assert (state_machine_go_to_state (Some m1) z = Ok (true, Some m2)) as Hgo.
  { rewrite (go_to_state_eval m1 z cur); [by rewrite Hbit| |by rewrite Hnr|done].
    by rewrite Hact. }
  assert (state_at m2 (actual_state m2) = Ok cur) as Hcur2.
  { unfold m2. simpl. by rewrite Hact. }
  assert (z < state_nr m1) as Hz1 by (by rewrite Hnr).
  destruct (layout_state_at m1 z Hl1 Hz1) as (new & Hnew & Hidn & _).
  destruct (N.eq_dec (id cur) z) as [Heq|Hneq].
  - exists (cs ++ [GoToState z; Run NULL]), m2.
    split_and!; [|unfold m2; simpl|done..].
    + eapply steps_app; [done|].
      eapply steps_cons; [by eapply step_go_to_state|].
      eapply steps_cons; [|constructor].
      eapply step_run. by apply (run_stay m2 NULL cur).
    + destruct (state_at_layout m1 y cur Hl1 Hcur) as (_ & Hid & _).
      congruence.
  - exists (cs ++ [GoToState z; Run NULL]), (set_actual_state z m2).
    split_and!; [|done..].
    eapply steps_app; [done|].
    eapply steps_cons; [by eapply step_go_to_state|].
    eapply steps_cons; [|constructor].
    eapply step_run. by apply (run_enter m2 NULL cur new).
Qed.

Lemma edge_path_walk_witness :
  fsm_inv scenario_machine /\
  masks_valid scenario_machine /\
  rtc (edge scenario_machine) (actual_state scenario_machine) 2 /\
  exists cs m',
    steps scenario_machine cs m' /\
    actual_state m' = 2 /\
    states m' = states scenario_machine /\
    (2 <> actual_state scenario_machine -> target_state m' = 2).
Proof.
  assert (fsm_inv scenario_machine) as H
    by (apply (bool_decide_unpack _); vm_compute; exact I).
  assert (masks_valid scenario_machine) as Hm
    by (apply (bool_decide_unpack _); vm_compute; exact I).
  assert (rtc (edge scenario_machine) (actual_state scenario_machine) 2) as Hp.
  { apply (rtc_l _ _ 1); [by eexists|].
    apply (rtc_l _ _ 2); [by eexists|]. apply rtc_refl. }
  split_and!; [exact H|exact Hm|exact Hp|].
  exact (edge_path_walk scenario_machine 2 H Hm Hp).
Defined.

(** ** Machines of at most 32 states *)

Section Total.


End Total.


